(** * Ingestion pipeline of the practical-rag-scratchpad notebooks

    A shallow embedding of the document-to-point ingestion code of
    [exploring-qdrant/02-setting-up-qdrant.ipynb]: [get_text_embedding]
    and [add_data_to_collection].  The notebook talks to three things it
    does not own: the operating system's entropy pool (through
    [uuid.uuid4]), the embedding provider (through the OpenAI client) and
    the vector store (through the Qdrant client).  They are modelled as
    handlers over an abstract world state [W]; every call to one of them
    is recorded, with its outcome, in the trace of the run. *)

From Stdlib Require Import ZArith Ascii String Floats.PrimFloat.
From stdpp Require Import base gmap strings list fin_maps.

Local Open Scope string_scope.
Local Open Scope list_scope.
Local Open Scope Z_scope.

(** ** Python values *)

(** The dataset rows are JSON-compatible Python objects. *)
#[warnings="-register-all"]
Inductive value : Type :=
  | VNone
  | VBool (b : bool)
  | VInt (n : Z)
  | VStr (s : string)
  | VList (l : list value)
  | VDict (kv : list (string * value)).

(** [d.get(k)]: the value under [k], or [None] when the key is absent. *)
Definition dict_get (d : gmap string value) (k : string) : value :=
  default VNone (d !! k).

(** A raised Python exception: its class name and message. *)
Inductive exn : Type :=
  | Exception (cls msg : string).

(** ** qdrant_client models *)

Inductive UpdateStatus : Type :=
  | ACKNOWLEDGED
  | COMPLETED
  | CLOCK_REJECTED.

Global Instance UpdateStatus_eq_dec : EqDecision UpdateStatus.
Proof. solve_decision. Defined.

Record UpdateResult : Type := mkUpdateResult {
  operation_id : option Z;
  status : UpdateStatus
}.

Record PointStruct : Type := mkPointStruct {
  point_id : string;
  vector : gmap string (list float);
  payload : gmap string value
}.

(** ** uuid *)

Module Uuid.

Definition hex_digit (d : Z) : ascii :=
  match String.get (Z.to_nat d) "0123456789abcdef" with
  | Some c => c
  | None => "0"%char
  end.

(** The [k] low nibbles of [n], most significant first, in front of [acc]. *)
Fixpoint hex_acc (k : nat) (n : Z) (acc : string) : string :=
  match k with
  | O => acc
  | S k' => hex_acc k' (Z.shiftr n 4) (String (hex_digit (Z.land n 15)) acc)
  end.

(** ['%032x' % n] for [0 <= n < 2^128]. *)
Definition hex32 (n : Z) : string := hex_acc 32 n "".

(** [UUID(bytes=b, version=4).int], with [r = int.from_bytes(b)]: the
    variant bits are set to RFC 4122 and the version nibble to 4. *)
Definition UUID_v4 (r : Z) : Z :=
  let i := Z.land r (Z.lnot (Z.shiftl 0xc000 48)) in
  let i := Z.lor i (Z.shiftl 0x8000 48) in
  let i := Z.land i (Z.lnot (Z.shiftl 0xf000 64)) in
  Z.lor i (Z.shiftl 4 76).

(** [UUID.__str__]: the 32 hex digits grouped 8-4-4-4-12. *)
Definition str (i : Z) : string :=
  let h := hex32 i in
  substring 0 8 h +:+ "-" +:+ substring 8 4 h +:+ "-" +:+
  substring 12 4 h +:+ "-" +:+ substring 16 4 h +:+ "-" +:+
  substring 20 12 h.

End Uuid.

(** ** Calls that leave the process *)

Inductive event : Type :=
  | EvUuid4 (text_id : string)
  | EvEmbeddingsCreate (input : value) (model : string)
                       (r : exn + list float)
  | EvUpsert (collection_name : string) (wait : bool)
             (points : list PointStruct) (r : exn + UpdateResult)
  | EvPrint (line : string).

(** The client objects, as the methods the notebook calls on them; [W] is
    the state of everything outside the notebook. *)
Record OpenAI (W : Type) : Type := mkOpenAI {
  embeddings_create : value → string → W → (exn + list float) * W;
  (* the attribute [OpenAIError] of the client object, when it has one:
     the test whether an exception is an instance of that class *)
  OpenAIError : option (exn → bool)
}.

Record QdrantClient (W : Type) : Type := mkQdrantClient {
  upsert : string → bool → list PointStruct → W → (exn + UpdateResult) * W
}.

Arguments mkOpenAI {W} _ _.
Arguments embeddings_create {W} _ _ _ _.
Arguments OpenAIError {W} _.
Arguments mkQdrantClient {W} _.
Arguments upsert {W} _ _ _ _ _.

(** What the notebook finds around it: the entropy pool behind
    [os.urandom(16)], read as a big-endian integer, and the module-level
    [openai_client]. *)
Class Environment (W : Type) : Type := {
  os_urandom16 : W → Z * W;
  openai_client : OpenAI W
}.

(** ** The pipeline *)

Section Pipeline.

Context {W : Type} `{!Environment W}.

(** A computation reads and updates the world, may raise, and emits the
    events of the calls it made. *)
Definition M (A : Type) : Type := W → (exn + A) * W * list event.

Definition ret {A} (a : A) : M A := fun w => (inr a, w, []).

Definition bind {A B} (m : M A) (f : A → M B) : M B :=
  fun w =>
    match m w with
    | (inl e, w', t) => (inl e, w', t)
    | (inr a, w', t) =>
        match f a w' with
        | (r, w'', t') => (r, w'', t ++ t')
        end
    end.

Notation "x <- m ;; k" := (bind m (fun x => k))
  (at level 100, m at next level, right associativity).

(** [str(uuid.uuid4())] *)
Definition uuid4_str : M string :=
  fun w =>
    let '(r, w') := os_urandom16 w in
    let s := Uuid.str (Uuid.UUID_v4 (r mod 2 ^ 128)) in
    (inr s, w', [EvUuid4 s]).

(** [client.embeddings.create(input=text, model=model).data[0].embedding] *)
Definition call_embeddings_create (client : OpenAI W)
    (text : value) (model : string) : M (list float) :=
  fun w =>
    let '(r, w') := embeddings_create client text model w in
    (r, w', [EvEmbeddingsCreate text model r]).

(** [qdrant_client.upsert(collection_name=..., wait=..., points=...)] *)
Definition call_upsert (qdrant_client : QdrantClient W)
    (collection_name : string) (wait : bool) (points : list PointStruct)
    : M UpdateResult :=
  fun w =>
    let '(r, w') := upsert qdrant_client collection_name wait points w in
    (r, w', [EvUpsert collection_name wait points r]).

Definition print (line : string) : M unit :=
  fun w => (inr tt, w, [EvPrint line]).

(** What leaves [try: ... except client.OpenAIError as e: raise e] when
    the body raised [e].  Python evaluates the [except] expression first:
    on a client without that attribute the lookup itself raises.
    Otherwise [e] is raised again by the handler when it is an instance of
    the class, and passes through uncaught when it is not. *)
Definition reraised (client : OpenAI W) (e : exn) : exn :=
  match OpenAIError client with
  | None =>
      Exception "AttributeError"
        "'OpenAI' object has no attribute 'OpenAIError'"
  | Some is_instance => if is_instance e then e else e
  end.

Definition try_except_reraise {A} (client : OpenAI W) (m : M A) : M A :=
  fun w =>
    match m w with
    | (inl e, w', t) => (inl (reraised client e), w', t)
    | (inr a, w', t) => (inr a, w', t)
    end.

Definition get_text_embedding (text : value) (openai_client : OpenAI W)
    (model : string) : M (list float) :=
  try_except_reraise openai_client (
    embedding <- call_embeddings_create openai_client text model ;;
    ret embedding).

(** The default of [get_text_embedding]'s [model] argument. *)
Definition default_model : string := "text-embedding-3-large".

(** The body of [for item in data]: builds the point of one record. *)
Definition build_point (item : gmap string value) : M PointStruct :=
  text_id <- uuid4_str ;;
  let summary := dict_get item "summary" in
  let chunk := dict_get item "chunk" in
  let title := dict_get item "title" in
  let source := dict_get item "source" in
  let authors := dict_get item "authors" in
  summary_vector <- get_text_embedding summary openai_client default_model ;;
  chunk_vector <- get_text_embedding chunk openai_client default_model ;;
  let vector_dict : gmap string (list float) :=
    <["chunk" := chunk_vector]> (<["summary" := summary_vector]> ∅) in
  let payload : gmap string value :=
    <["summary" := summary]> (<["chunk" := chunk]> (
    <["authors" := authors]> (<["source" := source]> (
    <["title" := title]> (<["text_id" := VStr text_id]> ∅))))) in
  ret (mkPointStruct text_id vector_dict payload).

(** The loop: [points.append(point)] for each record in turn. *)
Fixpoint build_points (data : list (gmap string value))
    (points : list PointStruct) : M (list PointStruct) :=
  match data with
  | [] => ret points
  | item :: rest =>
      point <- build_point item ;;
      build_points rest (points ++ [point])
  end.

Definition add_data_to_collection (data : list (gmap string value))
    (qdrant_client : QdrantClient W) (collection_name : string) : M unit :=
  points <- build_points data [] ;;
  operation_info <- call_upsert qdrant_client collection_name true points ;;
  if decide (status operation_info = COMPLETED)
  then print "Data inserted successfully!"
  else print "Failed to insert data".

End Pipeline.

(** Projections of a finished run. *)
Definition result_of {W A} (x : (exn + A) * W * list event) : exn + A := x.1.1.
Definition world_of {W A} (x : (exn + A) * W * list event) : W := x.1.2.
Definition trace_of {W A} (x : (exn + A) * W * list event) : list event := x.2.

(** ** Reading a trace *)

Definition upsert_calls (t : list event)
    : list (string * bool * list PointStruct) :=
  omap (λ ev, match ev with
              | EvUpsert c wt pts _ => Some (c, wt, pts)
              | _ => None
              end) t.

Definition embed_calls (t : list event) : list (value * string) :=
  omap (λ ev, match ev with
              | EvEmbeddingsCreate input model _ => Some (input, model)
              | _ => None
              end) t.

Definition embed_failures (t : list event) : list exn :=
  omap (λ ev, match ev with
              | EvEmbeddingsCreate _ _ (inl e) => Some e
              | _ => None
              end) t.

Definition upsert_statuses (t : list event) : list UpdateStatus :=
  omap (λ ev, match ev with
              | EvUpsert _ _ _ (inr info) => Some (status info)
              | _ => None
              end) t.

Definition printed (t : list event) : list string :=
  omap (λ ev, match ev with EvPrint s => Some s | _ => None end) t.

(** The identifiers of the points handed to [upsert], call after call. *)
Definition upserted_ids (t : list event) : list string :=
  upsert_calls t ≫= (λ c, point_id <$> c.2).

(** ** The storage service and the embedding provider *)

Module Service.

(** Modelled from the spec: the storage service's collection and its
    [upsert], which run on the Qdrant server and are not part of the
    notebooks.  A collection holds its points keyed by identifier; an
    upserted point takes the place of any point with the same
    identifier. *)
Definition store_upsert (points : list PointStruct)
    (c : gmap string PointStruct) : gmap string PointStruct :=
  foldl (λ c p, <[point_id p := p]> c) c points.

(** Modelled from the spec: [getCollection(name).points_count]. *)
Definition points_count (c : gmap string PointStruct) : nat := size c.

(** Modelled from the spec: the dimensionality the provider documents
    for a model; the notebooks name one model, of 3072 dimensions. *)
Definition declared_dimensionality (model : string) : option nat :=
  if decide (model = "text-embedding-3-large") then Some 3072%nat
  else None.

(** Modelled from the spec: the provider's guarantee that a vector
    returned for a non-empty text has the model's documented length. *)
Definition honours_dimensionality {W} (c : OpenAI W) : Prop :=
  ∀ (s : string) (model : string) (w w' : W) (v : list float) (d : nat),
    s ≠ "" →
    declared_dimensionality model = Some d →
    embeddings_create c (VStr s) model w = (inr v, w') →
    length v = d.

End Service.

(** ** Vocabulary of the statements *)

(** The fields the notebook reads from each record. *)
Definition required_fields : list string :=
  ["summary"; "chunk"; "title"; "source"; "authors"].

(** The two vector slots the collection declares. *)
Definition declared_slots : gset string := {[ "summary"; "chunk" ]}.

(** The keys of a payload. *)
Definition payload_keys : gset string :=
  {[ "text_id"; "title"; "source"; "authors"; "chunk"; "summary" ]}.

(** The fields [keys] as [d.get] reads them from a record. *)
Definition fields_of (item : gmap string value) (keys : list string)
    : gmap string value :=
  list_to_map ((λ k, (k, dict_get item k)) <$> keys).

(** The payload as the specification words it: the generated identifier,
    the raw text fields that were embedded, and every other field present
    on the record. *)
Definition spec_payload (text_id : string) (item : gmap string value)
    : gmap string value :=
  {[ "text_id" := VStr text_id ]}
  ∪ filter (λ kv, kv.1 ∈ declared_slots) item
  ∪ filter (λ kv, kv.1 ∉ declared_slots) item.

(** The identifier [uuid4] hands out in world [w]. *)
Definition next_text_id {W} `{!Environment W} (w : W) : string :=
  Uuid.str (Uuid.UUID_v4 ((os_urandom16 w).1 mod 2 ^ 128)).

(** Point [p] carries, under each declared slot and nowhere else, the
    vector that the provider returned, during the run traced by [t], for
    the text the payload holds under the same name. *)
Definition complete_point (t : list event) (p : PointStruct) : Prop :=
  ∃ s c sv cv,
    vector p !! "summary" = Some sv ∧ vector p !! "chunk" = Some cv ∧
    dom (vector p) = declared_slots ∧
    payload p !! "summary" = Some s ∧ payload p !! "chunk" = Some c ∧
    EvEmbeddingsCreate s default_model (inr sv) ∈ t ∧
    EvEmbeddingsCreate c default_model (inr cv) ∈ t.

(** Point [p] is the point of record [item]: its payload repeats the
    record's five fields. *)
Definition point_of_record (item : gmap string value) (p : PointStruct)
    : Prop :=
  Forall (λ k, payload p !! k = Some (dict_get item k)) required_fields.

(** The two provider calls a record asks for. *)
Definition calls_for (item : gmap string value) : list (value * string) :=
  [ (dict_get item "summary", default_model);
    (dict_get item "chunk", default_model) ].

(** What one pass through the loop body can do. *)
Inductive built {W} `{!Environment W} (item : gmap string value) (w : W)
    : (exn + PointStruct) * W * list event → Prop :=
  | built_point r0 w0 sv w1 cv w2 :
      os_urandom16 w = (r0, w0) →
      embeddings_create openai_client (dict_get item "summary")
        default_model w0 = (inr sv, w1) →
      embeddings_create openai_client (dict_get item "chunk")
        default_model w1 = (inr cv, w2) →
      let text_id := next_text_id w in
      built item w
        (inr (mkPointStruct text_id
                (<["chunk" := cv]> (<["summary" := sv]> ∅))
                (<["summary" := dict_get item "summary"]> (
                 <["chunk" := dict_get item "chunk"]> (
                 <["authors" := dict_get item "authors"]> (
                 <["source" := dict_get item "source"]> (
                 <["title" := dict_get item "title"]> (
                 <["text_id" := VStr text_id]> ∅))))))),
         w2,
         [ EvUuid4 text_id;
           EvEmbeddingsCreate (dict_get item "summary") default_model (inr sv);
           EvEmbeddingsCreate (dict_get item "chunk") default_model (inr cv) ])
  | built_summary_failed r0 w0 e w1 :
      os_urandom16 w = (r0, w0) →
      embeddings_create openai_client (dict_get item "summary")
        default_model w0 = (inl e, w1) →
      built item w
        (inl (reraised openai_client e), w1,
         [ EvUuid4 (next_text_id w);
           EvEmbeddingsCreate (dict_get item "summary") default_model (inl e) ])
  | built_chunk_failed r0 w0 sv w1 e w2 :
      os_urandom16 w = (r0, w0) →
      embeddings_create openai_client (dict_get item "summary")
        default_model w0 = (inr sv, w1) →
      embeddings_create openai_client (dict_get item "chunk")
        default_model w1 = (inl e, w2) →
      built item w
        (inl (reraised openai_client e), w2,
         [ EvUuid4 (next_text_id w);
           EvEmbeddingsCreate (dict_get item "summary") default_model (inr sv);
           EvEmbeddingsCreate (dict_get item "chunk") default_model (inl e) ]).

(** Point [p] was built from record [item] by a pass through the loop
    body whose events lie, contiguous, in the trace [t]. *)
Definition pass_of {W} `{!Environment W} (t : list event)
    (item : gmap string value) (p : PointStruct) : Prop :=
  ∃ (w0 w1 : W) t0 tl tr,
    build_point item w0 = (inr p, w1, t0) ∧ t = tl ++ t0 ++ tr.

(** The loop ran to its end over [data]: [pts] are the points of the
    records, in order, and [t] holds two provider calls per record, none
    of which raised, and nothing else but the identifier draws. *)
Definition batch_built {W} `{!Environment W}
    (data : list (gmap string value)) (pts : list PointStruct)
    (t : list event) : Prop :=
  Forall2 (pass_of (W := W) t) data pts ∧
  embed_failures t = [] ∧ upsert_calls t = [] ∧ printed t = [] ∧
  embed_calls t = data ≫= calls_for.

(** What a call of [add_data_to_collection] can do. *)
Inductive ingested {W} `{!Environment W} (data : list (gmap string value))
    (qdrant_client : QdrantClient W) (collection_name : string)
    : (exn + unit) * W * list event → Prop :=
  | ingested_embedder_raised e e0 (w1 : W) t1 :
      embed_failures t1 = [e0] → upsert_calls t1 = [] → printed t1 = [] →
      ingested data qdrant_client collection_name (inl e, w1, t1)
  | ingested_upsert_raised pts w1 t1 e w2 :
      batch_built data pts t1 →
      upsert qdrant_client collection_name true pts w1 = (inl e, w2) →
      ingested data qdrant_client collection_name
        (inl e, w2, t1 ++ [EvUpsert collection_name true pts (inl e)])
  | ingested_upsert_returned pts w1 t1 info w2 :
      batch_built data pts t1 →
      upsert qdrant_client collection_name true pts w1 = (inr info, w2) →
      ingested data qdrant_client collection_name
        (inr tt, w2,
         t1 ++ [ EvUpsert collection_name true pts (inr info);
                 EvPrint (if decide (status info = COMPLETED)
                          then "Data inserted successfully!"
                          else "Failed to insert data") ]).

(** ** A small world to run the pipeline in *)

Module Lab.

Record world : Type := mkWorld {
  entropy : list Z;          (* what [os.urandom] will return, in turn *)
  requests_left : nat;       (* provider quota before it rate-limits *)
  collection : gmap string PointStruct
}.

Definition urandom16 (w : world) : Z * world :=
  match entropy w with
  | [] => (0, w)
  | r :: rest => (r, mkWorld rest (requests_left w) (collection w))
  end.

Definition dimension (model : string) : nat :=
  default 1536%nat (Service.declared_dimensionality model).

(** A provider that rejects anything but a non-empty string, rate-limits
    once its quota is used up, and otherwise answers with a vector of
    the model's dimension. *)
Definition provider : OpenAI world :=
  mkOpenAI (λ input model w,
    match input with
    | VStr (String _ _) =>
        match requests_left w with
        | O => (inl (Exception "RateLimitError" "quota exceeded"), w)
        | S n =>
            (inr (repeat 0%float (dimension model)),
             mkWorld (entropy w) n (collection w))
        end
    | _ => (inl (Exception "BadRequestError" "invalid input"), w)
    end) None.

Definition env : Environment world :=
  {| os_urandom16 := urandom16; openai_client := provider |}.

(** A store that commits the batch and reports [COMPLETED] when asked
    to wait, [ACKNOWLEDGED] otherwise. *)
Definition q_client : QdrantClient world :=
  mkQdrantClient (λ _ wait points w,
    (inr (mkUpdateResult (Some 0) (if wait then COMPLETED else ACKNOWLEDGED)),
     mkWorld (entropy w) (requests_left w)
             (Service.store_upsert points (collection w)))).

(** A store that returns normally but did not complete the update. *)
Definition rejecting_client : QdrantClient world :=
  mkQdrantClient (λ _ _ _ w,
    (inr (mkUpdateResult None CLOCK_REJECTED), w)).

(** A row of the dataset, cut down to what matters here. *)
Definition row : gmap string value :=
  list_to_map [
    ("doi", VStr "2210.02406");
    ("chunk-id", VStr "4");
    ("chunk", VStr "Figure 1: While standard approaches only provide labeled examples");
    ("id", VStr "2210.02406");
    ("title", VStr "Decomposed Prompting: A Modular Approach for Solving Complex Tasks");
    ("summary", VStr "Few-shot prompting is a surprisingly powerful way to use Large Language Models");
    ("source", VStr "http://arxiv.org/pdf/2210.02406");
    ("authors", VList [VStr "Tushar Khot"; VStr "Harsh Trivedi"]);
    ("categories", VList [VStr "cs.CL"]);
    ("journal_ref", VNone);
    ("published", VStr "20221005")
  ].

(** A second row, of another paper. *)
Definition row2 : gmap string value :=
  list_to_map [
    ("doi", VStr "2205.12255");
    ("chunk", VStr "We introduce a framework for tool-augmented language models");
    ("title", VStr "TALM: Tool Augmented Language Models");
    ("summary", VStr "Transformer based language models struggle on tasks that need external data");
    ("source", VStr "http://arxiv.org/pdf/2205.12255");
    ("authors", VList [VStr "Aaron Parisi"; VStr "Yao Zhao"; VStr "Noah Fiedel"])
  ].

Definition world0 : world :=
  mkWorld [0x000102030405060708090a0b0c0d0e0f;
           0xffffffffffffffffffffffffffffffff] 100 ∅.

(** Two points under one identifier, and a third under another. *)
Definition earlier_point : PointStruct :=
  mkPointStruct "00010203-0405-4607-8809-0a0b0c0d0e0f"
    (<["chunk" := [0.25%float]]> (<["summary" := [0.5%float]]> ∅))
    (<["title" := VStr "draft"]> (<["doi" := VStr "2210.02406"]> ∅)).

Definition later_point : PointStruct :=
  mkPointStruct "00010203-0405-4607-8809-0a0b0c0d0e0f"
    (<["chunk" := [2%float]]> (<["summary" := [1%float]]> ∅))
    (<["title" := VStr "final"]> ∅).

Definition other_point : PointStruct :=
  mkPointStruct "ffffffff-ffff-4fff-bfff-ffffffffffff"
    (<["chunk" := [2%float]]> (<["summary" := [1%float]]> ∅))
    (<["title" := VStr "other"]> ∅).

Definition build (item : gmap string value) (w : world) :=
  @build_point world env item w.

Definition ingest (data : list (gmap string value)) (w : world) :=
  @add_data_to_collection world env data q_client "arxiv_chunks" w.

(** The same call against the store that does not complete updates. *)
Definition ingest_rejected (data : list (gmap string value)) (w : world) :=
  @add_data_to_collection world env data rejecting_client "arxiv_chunks" w.

End Lab.

(** ** The rest of the notebook *)

(** *** tiktoken *)

Module tiktoken.

(** An [Encoding] object, as the one method the counting function calls
    on it. *)
Record Encoding : Type := mkEncoding {
  encode : string → exn + list Z
}.

End tiktoken.

Section Tokens.

(** The class hierarchy of the running program: [issubclass c d] for the
    classes named [c] and [d].  It holds the built-in exception classes
    and whatever classes the libraries define.  In Python a class is a
    subclass of itself; the facts about the code hold in any hierarchy,
    so this is left to the hierarchy supplied. *)
Variable issubclass : string → string → bool.

(** [isinstance(e, cls)], which is what [except cls] tests: the class of
    [e] is [cls] or one of its subclasses. *)
Definition isinstance (e : exn) (cls : string) : bool :=
  match e with
  | Exception c _ => issubclass c cls
  end.

(** [tiktoken.get_encoding] *)
Variable get_encoding : string → exn + tiktoken.Encoding.

Definition num_tokens_from_string (string_ : string) (encoding_name : string)
    : exn + nat :=
  let body :=
    match get_encoding encoding_name with
    | inl e => inl e
    | inr encoding =>
        match tiktoken.encode encoding string_ with
        | inl e => inl e
        | inr tokens => inr (length tokens)
        end
    end in
  match body with
  | inl e =>
      if isinstance e "KeyError"
      then inl (Exception "ValueError"
                  ("Unsupported encoding: " +:+ encoding_name))
      else inl e
  | inr num_tokens => inr num_tokens
  end.

End Tokens.

(** *** The collection the notebook creates *)

Module models.

Inductive Distance : Type :=
  | COSINE
  | EUCLID
  | DOT
  | MANHATTAN.

Record VectorParams : Type := mkVectorParams {
  size : nat;
  distance : Distance
}.

End models.

(** The [vectors_config] passed to [create_collection] for
    "arxiv_chunks". *)
Definition arxiv_chunks_vectors_config : gmap string models.VectorParams :=
  <["summary" := models.mkVectorParams 3072 models.COSINE]> (
  <["chunk" := models.mkVectorParams 3072 models.COSINE]> ∅).

(** A point fits a collection of named vectors: it has a vector under
    each declared name and under no other, each of the declared size. *)
Definition fits_collection (config : gmap string models.VectorParams)
    (p : PointStruct) : Prop :=
  dom (vector p) = dom config ∧
  ∀ name params v,
    config !! name = Some params → vector p !! name = Some v →
    length v = models.size params.

(** *** More vocabulary *)

(** The exceptions [upsert] raised during a run. *)
Definition upsert_failures (t : list event) : list exn :=
  omap (λ ev, match ev with
              | EvUpsert _ _ _ (inl e) => Some e
              | _ => None
              end) t.

(** The events of the loop: identifier draws and provider calls. *)
Definition is_loop_event (ev : event) : bool :=
  match ev with
  | EvUuid4 _ | EvEmbeddingsCreate _ _ _ => true
  | EvUpsert _ _ _ _ | EvPrint _ => false
  end.

(** Two records read alike: [get] gives the same for each of the five
    fields the notebook reads. *)
Definition same_required_fields (item1 item2 : gmap string value) : Prop :=
  Forall (λ k, dict_get item1 k = dict_get item2 k) required_fields.

(** A record whose summary and chunk are non-empty strings. *)
Definition has_texts (item : gmap string value) : Prop :=
  ∃ s c, dict_get item "summary" = VStr s ∧ s ≠ "" ∧
         dict_get item "chunk" = VStr c ∧ c ≠ "".

(** *** The textual form of a version-4 UUID *)

(** The [j]-th hexadecimal digit of [n], counted from the least
    significant. *)
Definition nibble (n : Z) (j : nat) : Z :=
  Z.land (Z.shiftr n (4 * Z.of_nat j)) 15.

Definition is_hex_digit (c : ascii) : bool :=
  existsb (Ascii.eqb c) (list_ascii_of_string "0123456789abcdef").

(** What the character at position [i] of a version-4 UUID string must
    be: a hyphen at 8, 13, 18 and 23; the version digit 4 at 14; one of
    8, 9, a, b (the RFC 4122 variant) at 19; a lowercase hexadecimal digit
    elsewhere. *)
Definition uuid4_char_ok (i : nat) (c : ascii) : bool :=
  if bool_decide (i ∈ [8; 13; 18; 23]%nat) then Ascii.eqb c "-"
  else if bool_decide (i = 14%nat) then Ascii.eqb c "4"
  else if bool_decide (i = 19%nat)
       then existsb (Ascii.eqb c) (list_ascii_of_string "89ab")
       else is_hex_digit c.

Definition is_uuid4_string (s : string) : bool :=
  let l := list_ascii_of_string s in
  bool_decide (length l = 36%nat) &&
  forallb (λ ic, uuid4_char_ok ic.1 ic.2) (zip (seq 0 36) l).

(** The 122 bits of a 128-bit draw that [uuid4] keeps: all but bits 62
    and 63 (the variant) and 76 to 79 (the version). *)
Definition uuid4_free_bits : Z :=
  Z.lxor (2 ^ 128 - 1) (Z.lor (Z.shiftl 0xc000 48) (Z.shiftl 0xf000 64)).

(** *** More of the small world *)

Module LabMore.

(** A store that cannot be reached. *)
Definition unreachable_client : QdrantClient Lab.world :=
  mkQdrantClient (λ _ _ _ w,
    (inl (Exception "ResponseHandlingException" "connection refused"), w)).

Definition ingest_unreachable (data : list (gmap string value))
    (w : Lab.world) :=
  @add_data_to_collection Lab.world Lab.env data unreachable_client
    "arxiv_chunks" w.

(** The dataset row with some of its other keys removed and its journal
    reference, [None] in the dataset, left out. *)
Definition row_trimmed : gmap string value :=
  delete "journal_ref" (delete "categories" (delete "doi" Lab.row)).

(** An encoding with one token per byte. *)
Definition byte_encoding : tiktoken.Encoding :=
  tiktoken.mkEncoding (λ s,
    inr ((λ c, Z.of_nat (nat_of_ascii c)) <$> list_ascii_of_string s)).

(** A class hierarchy: the built-in [LookupError] with its subclasses
    [KeyError] and [IndexError], [ValueError] beside them, and a library's
    own [UnknownEncoding], a subclass of [KeyError]. *)
Definition parents : list (string * string) :=
  [ ("UnknownEncoding", "KeyError");
    ("KeyError", "LookupError");
    ("IndexError", "LookupError");
    ("LookupError", "Exception");
    ("ValueError", "Exception") ].

Fixpoint ancestors (fuel : nat) (c : string) : list string :=
  match fuel with
  | O => [c]
  | S fuel' =>
      c :: match (list_to_map parents : gmap string string) !! c with
           | Some d => ancestors fuel' d
           | None => []
           end
  end.

Definition issubclass (c d : string) : bool :=
  bool_decide (d ∈ ancestors (length parents) c).

(** A library that knows one encoding and signals any other name with
    [KeyError]. *)
Definition get_encoding_KeyError (name : string)
    : exn + tiktoken.Encoding :=
  if decide (name = "cl100k_base") then inr byte_encoding
  else inl (Exception "KeyError" name).

(** The same library signalling an unknown name with its own subclass of
    [KeyError]. *)
Definition get_encoding_subclass (name : string)
    : exn + tiktoken.Encoding :=
  if decide (name = "cl100k_base") then inr byte_encoding
  else inl (Exception "UnknownEncoding" name).

(** The same library signalling an unknown name with [ValueError]. *)
Definition get_encoding_ValueError (name : string)
    : exn + tiktoken.Encoding :=
  if decide (name = "cl100k_base") then inr byte_encoding
  else inl (Exception "ValueError" ("Unknown encoding " +:+ name)).

End LabMore.

(** * Facts *)

(** ** uuid *)

Example uuid_of_counting_bytes :
  Uuid.str (Uuid.UUID_v4 0x000102030405060708090a0b0c0d0e0f)
  = "00010203-0405-4607-8809-0a0b0c0d0e0f".
Proof. reflexivity. Qed.

Example uuid_of_all_ones :
  Uuid.str (Uuid.UUID_v4 (2 ^ 128 - 1))
  = "ffffffff-ffff-4fff-bfff-ffffffffffff".
Proof. reflexivity. Qed.

(** ** Traces *)

Lemma upsert_calls_app t1 t2 :
  upsert_calls (t1 ++ t2) = upsert_calls t1 ++ upsert_calls t2.
Proof. apply omap_app. Qed.

Lemma embed_calls_app t1 t2 :
  embed_calls (t1 ++ t2) = embed_calls t1 ++ embed_calls t2.
Proof. apply omap_app. Qed.

Lemma embed_failures_app t1 t2 :
  embed_failures (t1 ++ t2) = embed_failures t1 ++ embed_failures t2.
Proof. apply omap_app. Qed.

Lemma printed_app t1 t2 : printed (t1 ++ t2) = printed t1 ++ printed t2.
Proof. apply omap_app. Qed.

Lemma upsert_statuses_app t1 t2 :
  upsert_statuses (t1 ++ t2) = upsert_statuses t1 ++ upsert_statuses t2.
Proof. apply omap_app. Qed.

Lemma no_upsert_no_status t : upsert_calls t = [] → upsert_statuses t = [].
Proof.
  induction t as [| ev t IH]; [done |].
  destruct ev as [| | c wt pts [e|info] |]; simpl; try done;
    unfold upsert_calls, upsert_statuses in *; simpl; auto.
Qed.

Lemma complete_point_mono t1 t2 t3 p :
  complete_point t2 p → complete_point (t1 ++ t2 ++ t3) p.
Proof.
  intros (s & c & sv & cv & Hs & Hc & Hd & Ps & Pc & Es & Ec).
  exists s, c, sv, cv. repeat split; try assumption;
    rewrite !elem_of_app; auto.
Qed.

Lemma elem_of_upsert_calls c wt pts t :
  (c, wt, pts) ∈ upsert_calls t ↔ ∃ r, EvUpsert c wt pts r ∈ t.
Proof.
  unfold upsert_calls. rewrite list_elem_of_omap. split.
  - intros (ev & Hin & Hev). destruct ev; try discriminate.
    injection Hev as -> -> ->. eauto.
  - intros (r & Hin). exists (EvUpsert c wt pts r). auto.
Qed.

(** ** The loop body and the loop *)

Section Loop.

Context {W : Type} `{!Environment W}.

Lemma get_text_embedding_run text client model (w : W) :
  get_text_embedding text client model w =
    (match (embeddings_create client text model w).1 with
     | inl e => inl (reraised client e)
     | inr v => inr v
     end,
     (embeddings_create client text model w).2,
     [EvEmbeddingsCreate text model (embeddings_create client text model w).1]).
Proof.
  unfold get_text_embedding, try_except_reraise, bind,
    call_embeddings_create, ret.
  destruct (embeddings_create client text model w) as [[e|v] w'];
    simpl; reflexivity.
Qed.

Lemma build_point_built item (w : W) : built item w (build_point item w).
Proof.
  unfold build_point, bind at 1. unfold uuid4_str.
  destruct (os_urandom16 w) as [r0 w0] eqn:E0.
  assert (Hid : Uuid.str (Uuid.UUID_v4 (r0 mod 2 ^ 128)) = next_text_id w)
    by (unfold next_text_id; rewrite E0; reflexivity).
  rewrite Hid. unfold bind at 1. rewrite get_text_embedding_run.
  destruct (embeddings_create openai_client (dict_get item "summary")
              default_model w0) as [[e|sv] w1] eqn:E1; simpl.
  - eapply built_summary_failed; eauto.
  - unfold bind at 1. rewrite get_text_embedding_run.
    destruct (embeddings_create openai_client (dict_get item "chunk")
                default_model w1) as [[e|cv] w2] eqn:E2; simpl.
    + eapply built_chunk_failed; eauto.
    + eapply built_point; eauto.
Qed.

(** A built point is complete and repeats its record. *)
Lemma built_point_ok item (w w' : W) p t :
  build_point item w = (inr p, w', t) →
  point_of_record item p ∧ complete_point t p ∧
  embed_failures t = [] ∧ upsert_calls t = [] ∧ printed t = [] ∧
  embed_calls t = calls_for item.
Proof.
  intros E. pose proof (build_point_built item w) as B.
  rewrite E in B. inversion B; subst. split; [| split].
  - unfold point_of_record, required_fields.
    repeat constructor; simpl; by simplify_map_eq.
  - exists (dict_get item "summary"), (dict_get item "chunk"), sv, cv.
    simpl. split; [by simplify_map_eq |]. split; [by simplify_map_eq |].
    split; [unfold declared_slots; set_solver |].
    split; [by simplify_map_eq |]. split; [by simplify_map_eq |].
    split; set_solver.
  - repeat split; reflexivity.
Qed.

(** A failed pass leaves the provider's exception and nothing else. *)
Lemma built_failure item (w w' : W) e t :
  build_point item w = (inl e, w', t) →
  ∃ e0, embed_failures t = [e0] ∧ upsert_calls t = [] ∧ printed t = [].
Proof.
  intros E. pose proof (build_point_built item w) as B.
  rewrite E in B. inversion B; subst; eexists; repeat split; reflexivity.
Qed.

Lemma pass_of_mono tl t tr item p :
  pass_of (W := W) t item p → pass_of (W := W) (tl ++ t ++ tr) item p.
Proof.
  intros (w0 & w1 & t0 & l & r & E & ->).
  exists w0, w1, t0, (tl ++ l), (r ++ tr). split; [exact E |].
  by rewrite <- !app_assoc.
Qed.

Lemma pass_of_ok t item p :
  pass_of (W := W) t item p → point_of_record item p ∧ complete_point t p.
Proof.
  intros (w0 & w1 & t0 & l & r & E & ->).
  apply built_point_ok in E as (? & ? & _). split; [done |].
  by apply complete_point_mono.
Qed.

(** The loop appends, in order, the point of each record; it makes two
    provider calls per record and no other call; it stops at the first
    provider exception. *)
Lemma build_points_spec data : ∀ acc (w : W),
  match build_points data acc w with
  | (inr pts, _, t) => ∃ new, pts = acc ++ new ∧ batch_built data new t
  | (inl e, _, t) =>
      ∃ e0, embed_failures t = [e0] ∧ upsert_calls t = [] ∧ printed t = []
  end.
Proof.
  induction data as [| item rest IH]; intros acc w.
  - simpl. exists []. rewrite app_nil_r. repeat split; constructor.
  - simpl. unfold bind.
    destruct (build_point item w) as [[[e|p] w1] t1] eqn:E1.
    + by apply built_failure in E1.
    + pose proof (built_point_ok _ _ _ _ _ E1) as (_ & _ & Hf & Hu & Hp & Hc).
      specialize (IH (acc ++ [p]) w1).
      destruct (build_points rest (acc ++ [p]) w1) as [[[e|pts] w2] t2].
      * rewrite embed_failures_app, upsert_calls_app, printed_app.
        destruct IH as (e0 & -> & -> & ->). exists e0.
        by rewrite Hf, Hu, Hp.
      * destruct IH as (new & -> & HF & Hf2 & Hu2 & Hp2 & Hc2).
        exists (p :: new). rewrite <- app_assoc. split; [done |].
        unfold batch_built.
        rewrite embed_failures_app, upsert_calls_app, printed_app,
          embed_calls_app, Hf, Hu, Hp, Hc, Hf2, Hu2, Hp2, Hc2.
        repeat split; try done.
        constructor.
        -- exists w, w1, t1, [], t2. done.
        -- eapply Forall2_impl; [exact HF |].
           intros x y Hy. rewrite <- (app_nil_r t2).
           by apply (pass_of_mono t1 t2 []).
Qed.

Lemma batch_built_points data pts t :
  batch_built (W := W) data pts t →
  Forall2 point_of_record data pts ∧ Forall (complete_point t) pts.
Proof.
  intros (HF & _). induction HF as [| item p data pts Hp HF IH].
  - split; constructor.
  - destruct IH as [IH1 IH2]. apply pass_of_ok in Hp as [? ?].
    split; by constructor.
Qed.

(** ** The whole function *)

Lemma add_data_to_collection_ingested data qdrant_client collection_name
    (w : W) :
  ingested data qdrant_client collection_name
    (add_data_to_collection data qdrant_client collection_name w).
Proof.
  unfold add_data_to_collection, bind at 1.
  pose proof (build_points_spec data [] w) as B.
  destruct (build_points data [] w) as [[[e|pts] w1] t1].
  - destruct B as (e0 & ? & ? & ?). by econstructor.
  - destruct B as (new & -> & B). simpl app.
    unfold bind, call_upsert.
    destruct (upsert qdrant_client collection_name true new w1)
      as [[e|info] w2] eqn:E.
    + by eapply ingested_upsert_raised.
    + destruct (decide (status info = COMPLETED)) as [Hs|Hs]; unfold print.
      * pose proof (ingested_upsert_returned data qdrant_client
                      collection_name new w1 t1 info w2 B E) as I.
        by rewrite decide_True in I.
      * pose proof (ingested_upsert_returned data qdrant_client
                      collection_name new w1 t1 info w2 B E) as I.
        by rewrite decide_False in I.
Qed.

(** A batch that reaches [upsert] is the batch the loop built. *)
Lemma upserted_batch_is_built data qdrant_client collection_name (w : W)
    c wt pts :
  (c, wt, pts) ∈ upsert_calls (trace_of (add_data_to_collection data
                                  qdrant_client collection_name w)) →
  c = collection_name ∧ wt = true ∧ ∃ t1, batch_built data pts t1.
Proof.
  destruct (add_data_to_collection_ingested data qdrant_client
              collection_name w) as [e e0 w1 t1 Hf Hu Hp
                                    | pts' w1 t1 e w2 B E
                                    | pts' w1 t1 info w2 B E];
    unfold trace_of; simpl.
  { rewrite Hu. by intros ?%elem_of_nil. }
  all: pose proof B as (_ & _ & Hu & _); rewrite upsert_calls_app, Hu; simpl;
    intros [= -> -> ->]%list_elem_of_singleton; eauto.
Qed.

End Loop.

(** Case analysis on what a run did: an embedding call raised ([Hf], with
    no upsert [Hu] and no print [Hp]); or the batch was built ([B]) and
    [upsert] raised or returned ([E]). *)
Ltac run_cases data qdrant_client collection_name w :=
  let e := fresh "e" in let e0 := fresh "e0" in
  let w1 := fresh "w1" in let t1 := fresh "t1" in
  let w2 := fresh "w2" in let pts := fresh "pts" in
  let info := fresh "info" in
  destruct (add_data_to_collection_ingested data qdrant_client
              collection_name w) as [e e0 w1 t1 ?Hf ?Hu ?Hp
                                    | pts w1 t1 e w2 ?B ?E
                                    | pts w1 t1 info w2 ?B ?E];
  unfold trace_of, result_of; simpl.

(** ** Claims about the whole function *)

Section Ingestion.

Context {W : Type} `{!Environment W}.

(** C1.  Whatever the records, the clients and the world: every point of
    a batch handed to [upsert] carries, under 'summary' and under 'chunk'
    and under no other name, the vector the provider returned in this run
    for the point's own summary and chunk; and if any embedding call of
    the run raised (as it does when the provider rejects the [None] read
    from an absent field), [upsert] is not called at all, so no point of
    any record is forwarded: the run prints nothing and ends in an
    exception. *)
Theorem no_partial_point_reaches_upsert data qdrant_client collection_name
    (w : W) :
  let run := add_data_to_collection data qdrant_client collection_name w in
  let t := trace_of run in
  (∀ c wt pts, (c, wt, pts) ∈ upsert_calls t → Forall (complete_point t) pts)
  ∧ (embed_failures t ≠ [] →
       upsert_calls t = [] ∧ printed t = [] ∧ ∃ e, result_of run = inl e).
Proof.
  intros run t. subst t run.
  run_cases data qdrant_client collection_name w.
  { split; [| by eauto]. intros c wt pts. rewrite Hu.
    by intros ?%elem_of_nil. }
  all: pose proof (batch_built_points _ _ _ B) as [_ HC];
    destruct B as (_ & Hf & Hu & _);
    rewrite embed_failures_app, upsert_calls_app, Hf, Hu; simpl;
    split; [| done]; intros c wt pts' Hin;
    apply list_elem_of_singleton in Hin; injection Hin as -> -> ->;
    eapply Forall_impl; [exact HC |]; intros p Hp;
    by apply (complete_point_mono [] _ _).
Qed.

(** C2.  When [upsert] returns a status other than [COMPLETED], the run
    prints the failure message and nothing else; the success message is
    printed only if [upsert] returned, and returned [COMPLETED]. *)
Theorem soft_failure_is_reported data qdrant_client collection_name (w : W) :
  let t := trace_of (add_data_to_collection data qdrant_client
                       collection_name w) in
  (∀ s, s ∈ upsert_statuses t → s ≠ COMPLETED →
        printed t = ["Failed to insert data"])
  ∧ ("Data inserted successfully!" ∈ printed t →
       upsert_statuses t = [COMPLETED]).
Proof.
  intros t. subst t.
  run_cases data qdrant_client collection_name w.
  - rewrite Hp, (no_upsert_no_status _ Hu). split.
    + by intros s ?%elem_of_nil.
    + by intros ?%elem_of_nil.
  - destruct B as (_ & _ & Hu & Hp & _).
    rewrite upsert_statuses_app, printed_app, Hp, (no_upsert_no_status _ Hu).
    simpl. split.
    + by intros s ?%elem_of_nil.
    + by intros ?%elem_of_nil.
  - destruct B as (_ & _ & Hu & Hp & _).
    rewrite upsert_statuses_app, printed_app, Hp, (no_upsert_no_status _ Hu).
    simpl. split.
    + intros s ->%list_elem_of_singleton Hne. by rewrite decide_False.
    + intros Hin%list_elem_of_singleton.
      destruct (decide (status info = COMPLETED)) as [-> |]; [done |].
      discriminate.
Qed.

(** C10, as the code has it.  A run in which no embedding call raises
    issues exactly one [upsert] call, for the given collection and with
    [wait=True], whose batch holds the point of each input record, one
    per record and in input order; for the empty list the single call is
    always made, with the empty batch.  A run in which an embedding call
    raises issues no [upsert] call. *)
Theorem one_upsert_with_all_points data qdrant_client collection_name
    (w : W) :
  let t := trace_of (add_data_to_collection data qdrant_client
                       collection_name w) in
  (embed_failures t = [] →
     ∃ pts, upsert_calls t = [(collection_name, true, pts)] ∧
            length pts = length data ∧ Forall2 point_of_record data pts)
  ∧ (data = [] → upsert_calls t = [(collection_name, true, [])])
  ∧ (embed_failures t ≠ [] → upsert_calls t = []).
Proof.
  intros t. subst t. split; [| split].
  - run_cases data qdrant_client collection_name w.
    { by rewrite Hf. }
    all: intros _; pose proof (batch_built_points _ _ _ B) as [HR _];
      destruct B as (_ & _ & Hu & _); exists pts;
      rewrite upsert_calls_app, Hu; split; [done |];
      split; [| done]; symmetry; by eapply Forall2_length.
  - intros ->. unfold add_data_to_collection, bind, call_upsert. simpl.
    destruct (upsert qdrant_client collection_name true [] w)
      as [[e|info] w2]; [done |].
    by destruct (decide (status info = COMPLETED)).
  - run_cases data qdrant_client collection_name w.
    { done. }
    all: destruct B as (_ & Hf & _); rewrite embed_failures_app, Hf;
      simpl; done.
Qed.

End Ingestion.

(** ** Claims about the point of one record *)

Section Builder.

Context {W : Type} `{!Environment W}.

Lemma dict_get_absent (item : gmap string value) k :
  item !! k = None → dict_get item k = VNone.
Proof. unfold dict_get. by intros ->. Qed.

(** C9, as the code has it.  A pass that builds a point calls the
    provider exactly twice, first on the record's summary and then on its
    chunk, each with the default model, and stores the two returned
    vectors under 'summary' and 'chunk'; a pass cut short by a provider
    exception has called it once (on the summary) or twice (on the
    summary, then the chunk) and builds no point.  Over a whole run in
    which no call raises, the provider calls are those two per record, in
    input order. *)
Theorem embedder_called_once_per_slot :
  (∀ item (w : W),
     match build_point item w with
     | (inr p, _, t) =>
         ∃ sv cv,
           t = [ EvUuid4 (point_id p);
                 EvEmbeddingsCreate (dict_get item "summary")
                   default_model (inr sv);
                 EvEmbeddingsCreate (dict_get item "chunk")
                   default_model (inr cv) ] ∧
           vector p = <["chunk" := cv]> (<["summary" := sv]> ∅)
     | (inl _, _, t) =>
         embed_calls t = [(dict_get item "summary", default_model)] ∨
         embed_calls t = calls_for item
     end)
  ∧ (∀ data qdrant_client collection_name (w : W),
       let t := trace_of (add_data_to_collection data qdrant_client
                            collection_name w) in
       embed_failures t = [] → embed_calls t = data ≫= calls_for).
Proof.
  split.
  - intros item w. destruct (build_point_built item w); simpl.
    + by exists sv, cv.
    + by left.
    + by right.
  - intros data qdrant_client collection_name w t. subst t.
    run_cases data qdrant_client collection_name w.
    { by rewrite Hf. }
    all: destruct B as (_ & _ & _ & _ & Hc); intros _;
      rewrite embed_calls_app, Hc; simpl; by rewrite app_nil_r.
Qed.

(** C8.  The payload of a built point has exactly the keys text_id,
    title, source, authors, chunk and summary; under chunk and summary it
    holds the very values that were sent to the provider, which are the
    record's; under title, source and authors what the record holds; and
    under text_id the point's own identifier.  The points of a batch
    handed to [upsert] are such points. *)
Theorem payload_has_exactly_six_keys :
  (∀ item (w : W),
     match build_point item w with
     | (inr p, _, t) =>
         dom (payload p) = payload_keys ∧
         payload p !! "text_id" = Some (VStr (point_id p)) ∧
         payload p !! "title" = Some (dict_get item "title") ∧
         payload p !! "source" = Some (dict_get item "source") ∧
         payload p !! "authors" = Some (dict_get item "authors") ∧
         ∃ s c,
           embed_calls t = [(s, default_model); (c, default_model)] ∧
           s = dict_get item "summary" ∧ c = dict_get item "chunk" ∧
           payload p !! "summary" = Some s ∧ payload p !! "chunk" = Some c
     | (inl _, _, _) => True
     end)
  ∧ (∀ data qdrant_client collection_name (w : W) c wt pts,
       (c, wt, pts) ∈ upsert_calls (trace_of (add_data_to_collection data
                                       qdrant_client collection_name w)) →
       Forall (λ p, dom (payload p) = payload_keys ∧
                    payload p !! "text_id" = Some (VStr (point_id p))) pts).
Proof.
  assert (Hone : ∀ item (w : W),
     match build_point item w with
     | (inr p, _, t) =>
         dom (payload p) = payload_keys ∧
         payload p !! "text_id" = Some (VStr (point_id p)) ∧
         payload p !! "title" = Some (dict_get item "title") ∧
         payload p !! "source" = Some (dict_get item "source") ∧
         payload p !! "authors" = Some (dict_get item "authors") ∧
         ∃ s c,
           embed_calls t = [(s, default_model); (c, default_model)] ∧
           s = dict_get item "summary" ∧ c = dict_get item "chunk" ∧
           payload p !! "summary" = Some s ∧ payload p !! "chunk" = Some c
     | (inl _, _, _) => True
     end).
  { intros item w.
    destruct (build_point_built item w); simpl; [| done | done].
    split; [unfold payload_keys; set_solver |].
    repeat (split; [by simplify_map_eq |]).
    exists (dict_get item "summary"), (dict_get item "chunk").
    repeat split; by simplify_map_eq. }
  split; [exact Hone |].
  intros data qdrant_client collection_name w c wt pts Hin.
  apply upserted_batch_is_built in Hin as (_ & _ & t1 & HF & _).
  induction HF as [| item p data' pts' Hp HF IH]; constructor; [| exact IH].
  destruct Hp as (w0 & w1 & t0 & _ & _ & E & _).
  specialize (Hone item w0). rewrite E in Hone.
  destruct Hone as (? & ? & _). done.
Qed.

(** C3, as the code has it.  The builder reads every field with [get]:
    an absent field is read as [None], and no exception is raised for it.
    When the pass builds a point, each absent field among summary, chunk,
    title, source and authors appears in the payload as [None]; an absent
    summary or chunk is sent to the provider as [None]; and when the pass
    ends in an exception, a provider call has raised. *)
Theorem absent_field_is_read_as_none item (w : W) :
  match build_point item w with
  | (inr p, _, t) =>
      (∀ k, k ∈ required_fields → item !! k = None →
            payload p !! k = Some VNone) ∧
      (item !! "summary" = None → (VNone, default_model) ∈ embed_calls t) ∧
      (item !! "chunk" = None → (VNone, default_model) ∈ embed_calls t)
  | (inl _, _, t) =>
      ∃ input e, EvEmbeddingsCreate input default_model (inl e) ∈ t
  end.
Proof.
  destruct (build_point_built item w); simpl.
  - split; [| split].
    + intros k Hk Hnone. rewrite <- (dict_get_absent item k Hnone).
      unfold required_fields in Hk.
      repeat (apply elem_of_cons in Hk as [-> | Hk]; [by simplify_map_eq |]).
      by apply elem_of_nil in Hk.
    + intros ->%dict_get_absent. set_solver.
    + intros ->%dict_get_absent. set_solver.
  - exists (dict_get item "summary"), e. set_solver.
  - exists (dict_get item "chunk"), e. set_solver.
Qed.

(** C4, as the code has it.  The payload of a built point is the union of
    the generated identifier under text_id, the two texts that were
    embedded (summary and chunk) and the three fields title, source and
    authors, each as [get] reads it from the record; no other key of the
    record is carried over. *)
Theorem payload_is_identifier_texts_and_three_fields item (w : W) :
  match build_point item w with
  | (inr p, _, _) =>
      payload p =
        {[ "text_id" := VStr (point_id p) ]}
        ∪ fields_of item ["summary"; "chunk"]
        ∪ fields_of item ["title"; "source"; "authors"]
      ∧ (∀ k, k ∉ payload_keys → payload p !! k = None)
  | (inl _, _, _) => True
  end.
Proof.
  destruct (build_point_built item w); simpl; [| done | done].
  split.
  - apply map_eq. intros k. unfold fields_of. simpl.
    rewrite !lookup_union, !lookup_insert, lookup_singleton, !lookup_empty.
    repeat case_decide; subst; try done.
  - intros k Hk. unfold payload_keys in Hk.
    rewrite !lookup_insert_ne by set_solver. done.
Qed.

End Builder.

(** ** Runs in the small world *)

Section LabRuns.

Import Lab.

Example two_rows_one_batch :
  upserted_ids (trace_of (ingest [row; row2] world0))
    = [ "00010203-0405-4607-8809-0a0b0c0d0e0f";
        "ffffffff-ffff-4fff-bfff-ffffffffffff" ] ∧
  length (upsert_calls (trace_of (ingest [row; row2] world0))) = 1%nat ∧
  printed (trace_of (ingest [row; row2] world0))
    = ["Data inserted successfully!"] ∧
  Service.points_count (collection (world_of (ingest [row; row2] world0)))
    = 2%nat.
Proof. vm_compute. repeat split; reflexivity. Qed.

(** The fault injection of the specification: a record without summary. *)
Example record_without_summary_never_upserted :
  embed_failures (trace_of (ingest [row2; delete "summary" row] world0))
    = [Exception "BadRequestError" "invalid input"] ∧
  result_of (ingest [row2; delete "summary" row] world0)
    = inl (Exception "AttributeError"
             "'OpenAI' object has no attribute 'OpenAIError'") ∧
  upsert_calls (trace_of (ingest [row2; delete "summary" row] world0)) = [] ∧
  collection (world_of (ingest [row2; delete "summary" row] world0)) = ∅.
Proof. vm_compute. repeat split; reflexivity. Qed.

(** The provider gives out after three calls: the second record's chunk
    is never embedded, and nothing is written. *)
Example rate_limited_midway :
  let w := mkWorld (entropy world0) 3 ∅ in
  embed_failures (trace_of (ingest [row; row2] w))
    = [Exception "RateLimitError" "quota exceeded"] ∧
  length (embed_calls (trace_of (ingest [row; row2] w))) = 4%nat ∧
  upsert_calls (trace_of (ingest [row; row2] w)) = [] ∧
  printed (trace_of (ingest [row; row2] w)) = [].
Proof. vm_compute. repeat split; reflexivity. Qed.

Example rejected_batch_prints_failure :
  result_of (ingest_rejected [row] world0) = inr tt ∧
  printed (trace_of (ingest_rejected [row] world0))
    = ["Failed to insert data"].
Proof. vm_compute. split; reflexivity. Qed.

End LabRuns.

(** ** The store *)

Lemma store_upsert_union (pts : list PointStruct) :
  ∀ c : gmap string PointStruct,
    Service.store_upsert pts c = Service.store_upsert pts ∅ ∪ c.
Proof.
  unfold Service.store_upsert.
  induction pts as [| p pts IH]; intros c; simpl.
  - by rewrite (left_id_L ∅ (∪)).
  - rewrite (IH (<[point_id p := p]> c)), (IH (<[point_id p := p]> ∅)).
    rewrite <- (assoc_L (∪)). f_equal.
    rewrite insert_union_singleton_l, insert_empty. done.
Qed.

Lemma store_upsert_fresh (pts : list PointStruct) :
  ∀ c : gmap string PointStruct,
    NoDup (point_id <$> pts) →
    (∀ p, p ∈ pts → c !! point_id p = None) →
    Service.points_count (Service.store_upsert pts c)
    = (Service.points_count c + length pts)%nat.
Proof.
  unfold Service.points_count, Service.store_upsert.
  induction pts as [| p pts IH]; intros c Hnd Hfresh; simpl.
  - lia.
  - apply NoDup_cons in Hnd as [Hp Hnd].
    rewrite IH; [| done |].
    + rewrite map_size_insert_None by (apply Hfresh; by left). lia.
    + intros q Hq. rewrite lookup_insert_ne; [apply Hfresh; by right |].
      intros Heq. apply Hp. rewrite Heq. by apply list_elem_of_fmap_2.
Qed.

(** C6.  In the store as the specification describes it, submitting a
    point (or a whole batch) a second time changes nothing, so the point
    count is what it was after the first submission; after an upsert the
    collection holds, under the point's identifier, exactly the submitted
    point, whatever was there before; and when the identifier was already
    present the point count does not change and no other point is
    touched. *)
Theorem upsert_is_idempotent_and_replaces (c : gmap string PointStruct)
    (p : PointStruct) (pts : list PointStruct) :
  Service.store_upsert [p] (Service.store_upsert [p] c)
    = Service.store_upsert [p] c ∧
  Service.points_count (Service.store_upsert [p] (Service.store_upsert [p] c))
    = Service.points_count (Service.store_upsert [p] c) ∧
  Service.store_upsert pts (Service.store_upsert pts c)
    = Service.store_upsert pts c ∧
  Service.store_upsert [p] c !! point_id p = Some p ∧
  (∀ k, k ≠ point_id p → Service.store_upsert [p] c !! k = c !! k) ∧
  (is_Some (c !! point_id p) →
     Service.points_count (Service.store_upsert [p] c)
     = Service.points_count c).
Proof.
  assert (Hbatch : ∀ l, Service.store_upsert l (Service.store_upsert l c)
                        = Service.store_upsert l c).
  { intros l. rewrite (store_upsert_union l (Service.store_upsert l c)).
    rewrite (store_upsert_union l c) at 1 2.
    rewrite (assoc_L (∪)). by rewrite (idemp_L (∪)). }
  split; [apply Hbatch |]. split; [by rewrite Hbatch |].
  split; [apply Hbatch |]. unfold Service.store_upsert, Service.points_count.
  simpl. split; [apply lookup_insert_eq |].
  split; [intros k Hk; by apply lookup_insert_ne |].
  intros Hold. by apply map_size_insert_Some.
Qed.

(** ** Identifiers *)

(** C5, as the code has it.  The identifier of a built point is the
    version-4 UUID made from the sixteen bytes the entropy pool hands out
    at that moment; it does not depend on the record.  In the store,
    upserting points whose identifiers are pairwise distinct and not yet
    present raises the point count by their number. *)
Theorem identifier_is_drawn_not_derived :
  (∀ W (E : Environment W) item (w : W),
     match build_point item w with
     | (inr p, _, _) =>
         point_id p = Uuid.str (Uuid.UUID_v4 ((os_urandom16 w).1 mod 2 ^ 128))
     | (inl _, _, _) => True
     end)
  ∧ (∀ (pts : list PointStruct) (c : gmap string PointStruct),
       NoDup (point_id <$> pts) →
       (∀ p, p ∈ pts → c !! point_id p = None) →
       Service.points_count (Service.store_upsert pts c)
       = (Service.points_count c + length pts)%nat).
Proof.
  split.
  - intros W E item w. by destruct (build_point_built item w).
  - intros pts c. apply store_upsert_fresh.
Qed.

(** ** The provider's dimensionality *)

Lemma lab_provider_honours_dimensionality :
  Service.honours_dimensionality Lab.provider.
Proof.
  intros s model w w' v d Hs Hd. simpl.
  destruct s as [| a s]; [done |].
  destruct (Lab.requests_left w); [discriminate |].
  intros [= <- _]. rewrite repeat_length. unfold Lab.dimension.
  by rewrite Hd.
Qed.

(** C7.  Given a provider that keeps its documented dimensionality:
    whenever the provider answers a non-empty text, [get_text_embedding]
    returns that answer, and its length is the one declared for the
    model, whatever the text is; for the default model it is 3072. *)
Theorem embedding_has_declared_length {W} (client : OpenAI W)
    (s model : string) (d : nat) (w w' : W) (v : list float) :
  Service.honours_dimensionality client →
  s ≠ "" →
  Service.declared_dimensionality model = Some d →
  embeddings_create client (VStr s) model w = (inr v, w') →
  result_of (get_text_embedding (VStr s) client model w) = inr v ∧
  length v = d ∧
  (model = default_model → length v = 3072%nat).
Proof.
  intros Hc Hs Hd E. rewrite get_text_embedding_run, E. unfold result_of.
  simpl. split; [reflexivity |].
  pose proof (Hc s model w w' v d Hs Hd E) as Hlen.
  split; [exact Hlen |]. intros ->. vm_compute in Hd. congruence.
Qed.

(** The theorem above at the lab's provider: a summary of the dataset is
    embedded into 3072 numbers. *)
Lemma embedding_has_declared_length_witness :
  ∃ v, result_of (get_text_embedding
                    (VStr "Few-shot prompting is a surprisingly powerful way")
                    Lab.provider default_model Lab.world0) = inr v ∧
       length v = 3072%nat.
Proof.
  exists (repeat 0%float 3072).
  refine (let H := embedding_has_declared_length Lab.provider
                     "Few-shot prompting is a surprisingly powerful way"
                     default_model 3072 Lab.world0
                     (Lab.mkWorld (Lab.entropy Lab.world0) 99 ∅)
                     (repeat 0%float 3072) _ _ _ _ in
          conj (proj1 H) (proj1 (proj2 H))).
  - exact lab_provider_honours_dimensionality.
  - discriminate.
  - reflexivity.
  - reflexivity.
Defined.

(** ** Where the code departs from the specification's wording *)

(** C3 fails on the code: a record without title is built into a point,
    with [None] under title, and the run ends with the success message. *)
Lemma missing_title_raises_nothing :
  delete "title" Lab.row !! "title" = None ∧
  (∃ p, result_of (Lab.build (delete "title" Lab.row) Lab.world0) = inr p ∧
        payload p !! "title" = Some VNone) ∧
  result_of (Lab.ingest [delete "title" Lab.row] Lab.world0) = inr tt ∧
  printed (trace_of (Lab.ingest [delete "title" Lab.row] Lab.world0))
    = ["Data inserted successfully!"].
Proof.
  split; [reflexivity |]. split.
  - eexists. split; vm_compute; reflexivity.
  - split; vm_compute; reflexivity.
Qed.

(** C4 fails on the code: the row's doi, categories and published fields
    are not in the payload, which therefore is not the union the
    specification words. *)
Lemma other_metadata_is_dropped :
  ∃ p, result_of (Lab.build Lab.row Lab.world0) = inr p ∧
       Lab.row !! "doi" = Some (VStr "2210.02406") ∧
       payload p !! "doi" = None ∧
       payload p !! "categories" = None ∧
       payload p !! "published" = None ∧
       spec_payload (point_id p) Lab.row !! "doi" = Some (VStr "2210.02406") ∧
       payload p ≠ spec_payload (point_id p) Lab.row.
Proof.
  eexists. split; [vm_compute; reflexivity |].
  repeat (split; [vm_compute; reflexivity |]).
  intros Heq. apply (f_equal (λ m, m !! "doi")) in Heq.
  vm_compute in Heq. discriminate.
Qed.

(** C9 fails on the code: at a provider whose quota is used up, the pass
    over a record calls it once, on the summary, and never on the chunk;
    and in a run whose provider gives out after two calls, the second
    record's chunk is never sent and no point is built for either. *)
Lemma rate_limited_pass_skips_the_chunk :
  let w0 := Lab.mkWorld (Lab.entropy Lab.world0) 0 ∅ in
  let w2 := Lab.mkWorld (Lab.entropy Lab.world0) 2 ∅ in
  embed_calls (trace_of (Lab.build Lab.row w0)) = take 1 (calls_for Lab.row) ∧
  embed_calls (trace_of (Lab.build Lab.row w0)) ≠ calls_for Lab.row ∧
  result_of (Lab.build Lab.row w0)
    = inl (reraised Lab.provider
             (Exception "RateLimitError" "quota exceeded")) ∧
  embed_calls (trace_of (Lab.ingest [Lab.row; Lab.row2] w2))
    = calls_for Lab.row ++ take 1 (calls_for Lab.row2) ∧
  upsert_calls (trace_of (Lab.ingest [Lab.row; Lab.row2] w2)) = [].
Proof.
  vm_compute. repeat split; try reflexivity. discriminate.
Qed.

(** C10 fails on the code: in a run over two records whose provider gives
    out after three calls, no [upsert] call is issued, not one. *)
Lemma rate_limited_run_issues_no_upsert :
  let w := Lab.mkWorld (Lab.entropy Lab.world0) 3 ∅ in
  embed_failures (trace_of (Lab.ingest [Lab.row; Lab.row2] w))
    = [Exception "RateLimitError" "quota exceeded"] ∧
  upsert_calls (trace_of (Lab.ingest [Lab.row; Lab.row2] w)) = [] ∧
  length (upsert_calls (trace_of (Lab.ingest [Lab.row; Lab.row2] w)))
    ≠ 1%nat.
Proof.
  vm_compute. repeat split; try reflexivity. discriminate.
Qed.

(** C5 fails on the code: ingesting the same row twice assigns two
    different identifiers, and the collection ends with two points. *)
Lemma reingestion_duplicates_the_point :
  let first := Lab.ingest [Lab.row] Lab.world0 in
  let second := Lab.ingest [Lab.row] (world_of first) in
  upserted_ids (trace_of first) = ["00010203-0405-4607-8809-0a0b0c0d0e0f"] ∧
  upserted_ids (trace_of second) = ["ffffffff-ffff-4fff-bfff-ffffffffffff"] ∧
  upserted_ids (trace_of first) ≠ upserted_ids (trace_of second) ∧
  Service.points_count (Lab.collection (world_of first)) = 1%nat ∧
  Service.points_count (Lab.collection (world_of second)) = 2%nat.
Proof.
  vm_compute. repeat split; try reflexivity. discriminate.
Qed.

(** ** The theorems at work in the small world *)

(** C1 at a provider that gives out after three calls: nothing is
    upserted, nothing is printed, the run raises. *)
Lemma no_partial_point_reaches_upsert_witness :
  let w := Lab.mkWorld (Lab.entropy Lab.world0) 3 ∅ in
  upsert_calls (trace_of (Lab.ingest [Lab.row; Lab.row2] w)) = [] ∧
  printed (trace_of (Lab.ingest [Lab.row; Lab.row2] w)) = [] ∧
  ∃ e, result_of (Lab.ingest [Lab.row; Lab.row2] w) = inl e.
Proof.
  intros w.
  apply (proj2 (@no_partial_point_reaches_upsert Lab.world Lab.env
                  [Lab.row; Lab.row2] Lab.q_client "arxiv_chunks" w)).
  vm_compute. discriminate.
Defined.

(** C2 at the store that returns [CLOCK_REJECTED]. *)
Lemma soft_failure_is_reported_witness :
  printed (trace_of (Lab.ingest_rejected [Lab.row] Lab.world0))
    = ["Failed to insert data"].
Proof.
  apply (proj1 (@soft_failure_is_reported Lab.world Lab.env
                  [Lab.row] Lab.rejecting_client "arxiv_chunks" Lab.world0)
           CLOCK_REJECTED).
  - vm_compute. apply list_elem_of_here.
  - discriminate.
Defined.

(** C3's theorem at the row without title. *)
Lemma absent_field_is_read_as_none_witness :
  ∃ p, result_of (Lab.build (delete "title" Lab.row) Lab.world0) = inr p ∧
       payload p !! "title" = Some VNone.
Proof.
  pose proof (@absent_field_is_read_as_none Lab.world Lab.env
                (delete "title" Lab.row) Lab.world0) as H.
  unfold Lab.build.
  destruct (@build_point Lab.world Lab.env (delete "title" Lab.row)
              Lab.world0) as [[[e|p] w'] t] eqn:E.
  - vm_compute in E. discriminate E.
  - exists p. split; [reflexivity |].
    apply (proj1 H).
    + unfold required_fields. do 2 apply list_elem_of_further.
      apply list_elem_of_here.
    + reflexivity.
Defined.

(** C9's theorem at two rows: four provider calls, in order. *)
Lemma embedder_called_once_per_slot_witness :
  embed_calls (trace_of (Lab.ingest [Lab.row; Lab.row2] Lab.world0))
    = calls_for Lab.row ++ calls_for Lab.row2.
Proof.
  pose proof (proj2 (@embedder_called_once_per_slot Lab.world Lab.env)
                [Lab.row; Lab.row2] Lab.q_client "arxiv_chunks" Lab.world0)
    as H.
  cbv zeta in H. unfold Lab.ingest. rewrite H.
  - reflexivity.
  - vm_compute. reflexivity.
Defined.

(** C10's theorem at two rows: one call, two points, in order. *)
Lemma one_upsert_with_all_points_witness :
  ∃ pts,
    upsert_calls (trace_of (Lab.ingest [Lab.row; Lab.row2] Lab.world0))
      = [("arxiv_chunks", true, pts)] ∧
    length pts = 2%nat ∧ Forall2 point_of_record [Lab.row; Lab.row2] pts.
Proof.
  apply (proj1 (@one_upsert_with_all_points Lab.world Lab.env
                  [Lab.row; Lab.row2] Lab.q_client "arxiv_chunks"
                  Lab.world0)).
  vm_compute. reflexivity.
Defined.

(** C5's theorem at two points of different identifiers: both are added. *)
Lemma identifier_is_drawn_not_derived_witness :
  Service.points_count
    (Service.store_upsert [Lab.earlier_point; Lab.other_point] ∅) = 2%nat.
Proof.
  rewrite (proj2 identifier_is_drawn_not_derived
             [Lab.earlier_point; Lab.other_point] ∅).
  - reflexivity.
  - apply NoDup_cons. split; [| apply NoDup_singleton].
    intros Hin%list_elem_of_singleton. discriminate Hin.
  - intros p _. apply lookup_empty.
Defined.

(** C6's theorem at a collection that already holds the identifier: the
    later point takes the earlier one's place, and the count stays one. *)
Lemma upsert_is_idempotent_and_replaces_witness :
  let c := Service.store_upsert [Lab.earlier_point] ∅ in
  payload Lab.earlier_point !! "doi" = Some (VStr "2210.02406") ∧
  payload Lab.later_point !! "doi" = None ∧
  Service.store_upsert [Lab.later_point] c !! point_id Lab.later_point
    = Some Lab.later_point ∧
  Service.points_count (Service.store_upsert [Lab.later_point] c)
    = Service.points_count c.
Proof.
  intros c.
  pose proof (upsert_is_idempotent_and_replaces c Lab.later_point [])
    as (_ & _ & _ & Hrepl & _ & Hcount).
  split; [reflexivity |]. split; [reflexivity |].
  split; [exact Hrepl |]. apply Hcount.
  exists Lab.earlier_point. reflexivity.
Defined.

(** C8's theorem at the dataset row: the six keys, and the identifier
    under text_id. *)
Lemma payload_has_exactly_six_keys_witness :
  ∃ p, result_of (Lab.build Lab.row Lab.world0) = inr p ∧
       dom (payload p) = payload_keys ∧
       payload p !! "text_id" = Some (VStr (point_id p)).
Proof.
  pose proof (proj1 (@payload_has_exactly_six_keys Lab.world Lab.env)
                Lab.row Lab.world0) as H.
  unfold Lab.build.
  destruct (@build_point Lab.world Lab.env Lab.row Lab.world0)
    as [[[e|p] w'] t] eqn:E.
  - vm_compute in E. discriminate E.
  - exists p. split; [reflexivity |].
    destruct H as (Hdom & Hid & _). by split.
Defined.

(** C4's theorem at the dataset row: identifier, two texts, three
    fields. *)
Lemma payload_is_identifier_texts_and_three_fields_witness :
  ∃ p, result_of (Lab.build Lab.row Lab.world0) = inr p ∧
       payload p =
         {[ "text_id" := VStr (point_id p) ]}
         ∪ fields_of Lab.row ["summary"; "chunk"]
         ∪ fields_of Lab.row ["title"; "source"; "authors"].
Proof.
  pose proof (@payload_is_identifier_texts_and_three_fields Lab.world
                Lab.env Lab.row Lab.world0) as H.
  unfold Lab.build.
  destruct (@build_point Lab.world Lab.env Lab.row Lab.world0)
    as [[[e|p] w'] t] eqn:E.
  - vm_compute in E. discriminate E.
  - exists p. split; [reflexivity |]. exact (proj1 H).
Defined.

(** * The rest of the code *)

(** ** More about the loop and the function *)

Lemma upsert_failures_app t1 t2 :
  upsert_failures (t1 ++ t2) = upsert_failures t1 ++ upsert_failures t2.
Proof. apply omap_app. Qed.

Lemma length_calls (data : list (gmap string value)) :
  length (data ≫= calls_for) = (2 * length data)%nat.
Proof.
  induction data as [| item rest IH]; [done |].
  change ((item :: rest) ≫= calls_for)
    with (calls_for item ++ (rest ≫= calls_for)).
  rewrite length_app, IH. simpl. lia.
Qed.

Section MoreLoop.

Context {W : Type} `{!Environment W}.

(** The function, one step at a time. *)
Lemma add_data_to_collection_unfold data qdrant_client collection_name
    (w : W) :
  add_data_to_collection data qdrant_client collection_name w =
    match build_points data [] w with
    | (inl e, w1, t1) => (inl e, w1, t1)
    | (inr pts, w1, t1) =>
        match upsert qdrant_client collection_name true pts w1 with
        | (inl e, w2) =>
            (inl e, w2, t1 ++ [EvUpsert collection_name true pts (inl e)])
        | (inr info, w2) =>
            (inr tt, w2,
             t1 ++ [ EvUpsert collection_name true pts (inr info);
                     EvPrint (if decide (status info = COMPLETED)
                              then "Data inserted successfully!"
                              else "Failed to insert data") ])
        end
    end.
Proof.
  unfold add_data_to_collection, bind at 1.
  destruct (build_points data [] w) as [[[e|pts] w1] t1]; [done |].
  unfold bind, call_upsert.
  destruct (upsert qdrant_client collection_name true pts w1)
    as [[e|info] w2]; [done |].
  by destruct (decide (status info = COMPLETED)).
Qed.

(** What the loop leaves in the trace: only identifier draws and provider
    calls, the calls being, in order, those the records ask for, up to
    the first that raises, which is then the last event. *)
Lemma build_points_trace data : ∀ acc (w : W),
  let run := build_points data acc w in
  Forall (λ ev, is_loop_event ev = true) (trace_of run) ∧
  embed_calls (trace_of run) `prefix_of` (data ≫= calls_for) ∧
  match result_of run with
  | inr _ => True
  | inl e' =>
      ∃ e input,
        e' = reraised openai_client e ∧
        embed_failures (trace_of run) = [e] ∧
        last (trace_of run)
          = Some (EvEmbeddingsCreate input default_model (inl e))
  end.
Proof.
  induction data as [| item rest IH]; intros acc w; simpl.
  - unfold trace_of, result_of, ret. simpl. split; [constructor |].
    split; [apply prefix_nil | done].
  - unfold bind. pose proof (build_point_built item w) as B.
    destruct B as [r0 w0 sv w1 cv w2 E0 E1 E2
                  | r0 w0 e w1 E0 E1
                  | r0 w0 sv w1 e w2 E0 E1 E2].
    + specialize (IH (acc ++ [mkPointStruct (next_text_id w)
                                (<["chunk":=cv]> (<["summary":=sv]> ∅))
                                (<["summary":=dict_get item "summary"]> (
                                 <["chunk":=dict_get item "chunk"]> (
                                 <["authors":=dict_get item "authors"]> (
                                 <["source":=dict_get item "source"]> (
                                 <["title":=dict_get item "title"]> (
                                 <["text_id":=VStr (next_text_id w)]> ∅))))))])
                     w2).
      destruct (build_points rest _ w2) as [[r w3] t3].
      unfold trace_of, result_of in *. simpl in *.
      destruct IH as (HF & Hpre & Hres). split; [| split].
      * repeat (constructor; [done |]). exact HF.
      * unfold embed_calls in *. simpl. fold (embed_calls t3).
        unfold calls_for at 1. simpl. by do 2 apply prefix_cons.
      * destruct r as [e' | pts]; [| done].
        destruct Hres as (e & input & -> & Hf & Hl).
        exists e, input. split; [done |]. split.
        -- unfold embed_failures in *. simpl. exact Hf.
        -- destruct t3 as [| ev t3]; [discriminate Hl |].
           simpl. exact Hl.
    + unfold trace_of, result_of. simpl. split; [| split].
      * by repeat constructor.
      * unfold calls_for. simpl. apply prefix_cons, prefix_nil.
      * by exists e, (dict_get item "summary").
    + unfold trace_of, result_of. simpl. split; [| split].
      * by repeat constructor.
      * unfold calls_for. simpl. do 2 apply prefix_cons. apply prefix_nil.
      * by exists e, (dict_get item "chunk").
Qed.

End MoreLoop.

Section MoreIngestion.

Context {W : Type} `{!Environment W}.

(** X1.  In every run the provider is asked, in input order, for the
    summary and then the chunk of each record, and for nothing else, up
    to the first call that raises; so it is called at most twice per
    record.  When no call raises, the calls are all of them: two for each
    record of the input.  A call that raises is the last thing the run
    does: no later record is read, nothing is upserted or printed, and
    the run ends in the exception that [get_text_embedding] lets out for
    it. *)
Theorem provider_calls_follow_the_records data qdrant_client collection_name
    (w : W) :
  let run := add_data_to_collection data qdrant_client collection_name w in
  (embed_failures (trace_of run) = [] →
     embed_calls (trace_of run) = data ≫= calls_for ∧
     length (embed_calls (trace_of run)) = (2 * length data)%nat) ∧
  embed_calls (trace_of run) `prefix_of` (data ≫= calls_for) ∧
  (length (embed_calls (trace_of run)) ≤ 2 * length data)%nat ∧
  ∀ e, e ∈ embed_failures (trace_of run) →
    result_of run = inl (reraised openai_client e) ∧
    ∃ input, last (trace_of run)
             = Some (EvEmbeddingsCreate input default_model (inl e)).
Proof.
  intros run. subst run.
  cut ((embed_failures (trace_of (add_data_to_collection data qdrant_client
                                    collection_name w)) = [] →
        embed_calls (trace_of (add_data_to_collection data qdrant_client
                                 collection_name w)) = data ≫= calls_for) ∧
       embed_calls (trace_of (add_data_to_collection data qdrant_client
                                 collection_name w))
         `prefix_of` (data ≫= calls_for) ∧
       ∀ e, e ∈ embed_failures (trace_of (add_data_to_collection data
                                   qdrant_client collection_name w)) →
         result_of (add_data_to_collection data qdrant_client
                      collection_name w) = inl (reraised openai_client e) ∧
         ∃ input, last (trace_of (add_data_to_collection data qdrant_client
                                    collection_name w))
                  = Some (EvEmbeddingsCreate input default_model (inl e))).
  { intros (Hall & Hpre & Hfail). split; [| split; [exact Hpre | split]].
    - intros Hnone. specialize (Hall Hnone). split; [exact Hall |].
      by rewrite Hall, length_calls.
    - apply prefix_length in Hpre. by rewrite length_calls in Hpre.
    - exact Hfail. }
  rewrite add_data_to_collection_unfold.
  pose proof (build_points_trace data [] w) as (_ & Hpre & Hres).
  pose proof (build_points_spec data [] w) as Hspec.
  destruct (build_points data [] w) as [[[e'|pts] w1] t1];
    unfold trace_of, result_of in *; simpl in *.
  - destruct Hres as (e & input & -> & Hf & Hl).
    split; [by rewrite Hf |]. split; [exact Hpre |].
    intros e1. rewrite Hf. intros ->%list_elem_of_singleton. eauto.
  - destruct Hspec as (new & _ & _ & Hf & _ & _ & Hc).
    destruct (upsert qdrant_client collection_name true pts w1)
      as [[e|info] w2]; simpl;
      rewrite embed_calls_app, embed_failures_app, Hf, Hc; simpl;
      rewrite app_nil_r; (split; [done |]); (split; [done |]);
      by intros e1 ?%elem_of_nil.
Qed.

(** X2.  The outcome of [upsert] decides the outcome of the run.  When
    [upsert] raises, the run ends in that very exception and prints
    nothing.  When [upsert] returns, whatever the status, the run returns
    normally: a status other than [COMPLETED] is printed, never raised.
    And the run returns normally only if [upsert] was called and
    returned. *)
Theorem upsert_outcome_decides_the_result data qdrant_client collection_name
    (w : W) :
  let run := add_data_to_collection data qdrant_client collection_name w in
  (∀ e, e ∈ upsert_failures (trace_of run) →
        result_of run = inl e ∧ printed (trace_of run) = []) ∧
  (∀ s, s ∈ upsert_statuses (trace_of run) → result_of run = inr tt) ∧
  (result_of run = inr tt → ∃ s, upsert_statuses (trace_of run) = [s]).
Proof.
  intros run. subst run. rewrite add_data_to_collection_unfold.
  pose proof (build_points_trace data [] w) as (HF & _).
  destruct (build_points data [] w) as [[[e'|pts] w1] t1];
    unfold trace_of, result_of in *; simpl in *.
  - assert (Hu : upsert_failures t1 = [] ∧ upsert_statuses t1 = []).
    { clear -HF. induction HF as [| ev t Hev HF IH]; [done |].
      destruct ev; try discriminate; exact IH. }
    destruct Hu as [-> ->]. split; [by intros e ?%elem_of_nil |].
    split; [by intros s ?%elem_of_nil | discriminate].
  - assert (Hu : upsert_failures t1 = [] ∧ upsert_statuses t1 = []
                 ∧ printed t1 = []).
    { clear -HF. induction HF as [| ev t Hev HF IH]; [done |].
      destruct ev; try discriminate; exact IH. }
    destruct Hu as (Hu1 & Hu2 & Hu3).
    destruct (upsert qdrant_client collection_name true pts w1)
      as [[e|info] w2]; simpl;
      rewrite upsert_failures_app, upsert_statuses_app, printed_app,
        Hu1, Hu2, Hu3; simpl.
    + split; [by intros e1 ->%list_elem_of_singleton |].
      split; [by intros s ?%elem_of_nil | discriminate].
    + split; [by intros e1 ?%elem_of_nil |]. split; [done | eauto].
Qed.

(** X3.  The order of effects in every run: first the loop, which only
    draws identifiers and calls the provider; then at most one [upsert],
    for the given collection and with [wait=True]; then, only if [upsert]
    returned, exactly one printed line.  So the provider is never called
    after the write, and nothing is written before every record has been
    embedded. *)
Theorem effects_come_in_order data qdrant_client collection_name (w : W) :
  ∃ t1 t2,
    trace_of (add_data_to_collection data qdrant_client collection_name w)
      = t1 ++ t2 ∧
    Forall (λ ev, is_loop_event ev = true) t1 ∧
    (t2 = [] ∨
     (∃ pts e, t2 = [EvUpsert collection_name true pts (inl e)]) ∨
     (∃ pts info line,
        t2 = [EvUpsert collection_name true pts (inr info); EvPrint line])).
Proof.
  rewrite add_data_to_collection_unfold.
  pose proof (build_points_trace data [] w) as (HF & _).
  destruct (build_points data [] w) as [[[e'|pts] w1] t1];
    unfold trace_of in *; simpl in *.
  - exists t1, []. rewrite app_nil_r. auto.
  - destruct (upsert qdrant_client collection_name true pts w1)
      as [[e|info] w2]; simpl; eexists t1, _; (split; [reflexivity |]);
      (split; [exact HF |]); eauto 8.
Qed.

End MoreIngestion.

Section MoreBuilder.

Context {W : Type} `{!Environment W}.

(** The loop body reads a record only through the five fields. *)
Lemma build_point_same_fields item1 item2 (w : W) :
  same_required_fields item1 item2 →
  build_point item1 w = build_point item2 w.
Proof.
  unfold same_required_fields, required_fields. intros HF.
  apply Forall_cons in HF as [Hs HF]. apply Forall_cons in HF as [Hc HF].
  apply Forall_cons in HF as [Ht HF]. apply Forall_cons in HF as [Hso HF].
  apply Forall_cons in HF as [Ha _].
  unfold build_point. by rewrite Hs, Hc, Ht, Hso, Ha.
Qed.

Lemma build_points_same_fields data1 data2 :
  Forall2 same_required_fields data1 data2 →
  ∀ acc (w : W), build_points data1 acc w = build_points data2 acc w.
Proof.
  induction 1 as [| item1 item2 data1 data2 Hi HF IH]; intros acc w;
    [done |].
  simpl. unfold bind. rewrite (build_point_same_fields _ _ w Hi).
  destruct (build_point item2 w) as [[[e|p] w1] t1]; [done |].
  by rewrite IH.
Qed.

(** A point built from a record with texts, by a provider that keeps its
    documented dimensionality, fits the collection. *)
Lemma built_point_fits item (w w' : W) p t :
  Service.honours_dimensionality openai_client →
  has_texts item →
  build_point item w = (inr p, w', t) →
  fits_collection arxiv_chunks_vectors_config p.
Proof.
  intros Hc (s & c & Hs & Hsne & Hch & Hcne) E.
  pose proof (build_point_built item w) as B. rewrite E in B.
  inversion B as [r0 w0 sv w1 cv w2 E0 E1 E2 | |]; subst. clear B.
  rewrite Hs in E1. rewrite Hch in E2.
  assert (Hd : Service.declared_dimensionality default_model = Some 3072%nat)
    by reflexivity.
  pose proof (Hc s default_model _ _ sv _ Hsne Hd E1) as Hlsv.
  pose proof (Hc c default_model _ _ cv _ Hcne Hd E2) as Hlcv.
  split; simpl.
  - unfold arxiv_chunks_vectors_config. rewrite !dom_insert_L. set_solver.
  - intros name params v Hcfg Hv. unfold arxiv_chunks_vectors_config in Hcfg.
    destruct (decide (name = "summary")) as [-> |].
    { rewrite lookup_insert_eq in Hcfg. injection Hcfg as <-.
      rewrite lookup_insert_ne, lookup_insert_eq in Hv by done.
      injection Hv as <-. exact Hlsv. }
    destruct (decide (name = "chunk")) as [-> |].
    { rewrite lookup_insert_ne, lookup_insert_eq in Hcfg by done.
      injection Hcfg as <-. rewrite lookup_insert_eq in Hv.
      injection Hv as <-. exact Hlcv. }
    rewrite !lookup_insert_ne, lookup_empty in Hcfg by done.
    discriminate Hcfg.
Qed.

(** X4.  With a provider that keeps its documented dimensionality, and
    records whose summary and chunk are non-empty strings, every point of
    a batch handed to [upsert] fits the collection the notebook created:
    a vector under 'summary' and one under 'chunk', no other, each of the
    3072 numbers the collection declares. *)
Theorem upserted_points_fit_the_collection data qdrant_client collection_name
    (w : W) c wt pts :
  Service.honours_dimensionality openai_client →
  Forall has_texts data →
  (c, wt, pts) ∈ upsert_calls (trace_of (add_data_to_collection data
                                  qdrant_client collection_name w)) →
  Forall (fits_collection arxiv_chunks_vectors_config) pts.
Proof.
  intros Hc Hdata Hin.
  apply upserted_batch_is_built in Hin as (_ & _ & t1 & HF & _).
  induction HF as [| item p data' pts' Hp HF IH]; [constructor |].
  apply Forall_cons in Hdata as [Hitem Hdata].
  constructor; [| by apply IH].
  destruct Hp as (w0 & w1 & t0 & _ & _ & E & _).
  by eapply built_point_fits.
Qed.

(** X5.  Only the five fields matter.  Two lists of records that read
    alike, record by record, on summary, chunk, title, source and authors
    make the same run: same calls, same points, same outcome.  Any other
    key of a record, and whether a field is absent or present as [None],
    changes nothing. *)
Theorem other_fields_are_never_read data1 data2 qdrant_client collection_name
    (w : W) :
  Forall2 same_required_fields data1 data2 →
  add_data_to_collection data1 qdrant_client collection_name w
  = add_data_to_collection data2 qdrant_client collection_name w.
Proof.
  intros HF. rewrite !add_data_to_collection_unfold.
  by rewrite (build_points_same_fields _ _ HF).
Qed.

End MoreBuilder.

(** ** The embedding function on its own *)

(** X6.  [get_text_embedding] makes exactly one provider call, with the
    text and model it was given, and leaves the world as that call left
    it.  When the provider answers, the answer is returned as it is.
    When the provider raises, the function raises too, without a second
    attempt and without a substitute vector: the provider's exception
    when the client object has an [OpenAIError] attribute, and otherwise
    the [AttributeError] of looking that attribute up. *)
Theorem get_text_embedding_outcome {W} (text : value) (client : OpenAI W)
    (model : string) (w : W) :
  let run := get_text_embedding text client model w in
  let answer := embeddings_create client text model w in
  trace_of run = [EvEmbeddingsCreate text model answer.1] ∧
  world_of run = answer.2 ∧
  result_of run =
    match answer.1 with
    | inr embedding => inr embedding
    | inl e =>
        match OpenAIError client with
        | Some _ => inl e
        | None =>
            inl (Exception "AttributeError"
                   "'OpenAI' object has no attribute 'OpenAIError'")
        end
    end.
Proof.
  intros run answer. subst run answer. rewrite get_text_embedding_run.
  unfold trace_of, world_of, result_of. simpl.
  split; [done |]. split; [done |].
  destruct (embeddings_create client text model w) as [[e|v] w']; simpl;
    [| done].
  unfold reraised. destruct (OpenAIError client) as [is_instance |];
    [| done].
  by destruct (is_instance e).
Qed.

(** ** Counting tokens *)

(** X7.  In a program where [ValueError] is not a kind of [KeyError]:
    [num_tokens_from_string] returns a count only when the encoding was
    found and the text was encoded, and the count is then the number of
    tokens.  It never lets out an exception that [except KeyError] would
    catch: a [KeyError], or an instance of any subclass of it, raised by
    either library call comes out as [ValueError] with the message
    "Unsupported encoding: " followed by the encoding's name.  Any other
    exception comes out unchanged; so an unknown name, signalled by the
    library with a [KeyError] of any kind or with a [ValueError], always
    reaches the caller as a [ValueError]. *)
Theorem num_tokens_from_string_outcome (issubclass : string → string → bool)
    (get_encoding : string → exn + tiktoken.Encoding)
    (text encoding_name : string) :
  issubclass "ValueError" "KeyError" = false →
  let result :=
    num_tokens_from_string issubclass get_encoding text encoding_name in
  let unsupported :=
    Exception "ValueError" ("Unsupported encoding: " +:+ encoding_name) in
  (∀ n, result = inr n →
        ∃ encoding tokens,
          get_encoding encoding_name = inr encoding ∧
          tiktoken.encode encoding text = inr tokens ∧
          n = length tokens) ∧
  (∀ e, result = inl e → isinstance issubclass e "KeyError" = false) ∧
  (∀ e, (get_encoding encoding_name = inl e ∨
         ∃ encoding, get_encoding encoding_name = inr encoding ∧
                     tiktoken.encode encoding text = inl e) →
        result = inl (if isinstance issubclass e "KeyError"
                      then unsupported else e)) ∧
  (∀ cls msg, get_encoding encoding_name = inl (Exception cls msg) →
              issubclass cls "KeyError" = true ∨ cls = "ValueError" →
              ∃ msg', result = inl (Exception "ValueError" msg')).
Proof.
  intros Hvalue result unsupported. subst result unsupported.
  unfold num_tokens_from_string.
  destruct (get_encoding encoding_name) as [e0 | encoding] eqn:E0.
  - split; [| split; [| split]].
    + intros n. destruct (isinstance issubclass e0 "KeyError"); discriminate.
    + intros e. destruct (isinstance issubclass e0 "KeyError") eqn:K;
        intros [= <-]; [exact Hvalue | exact K].
    + intros e [[= ->] | (enc & He & _)]; [| discriminate He].
      by destruct (isinstance issubclass e "KeyError").
    + intros cls msg [= ->] [Hsub | ->]; simpl.
      * rewrite Hsub. eauto.
      * destruct (issubclass "ValueError" "KeyError"); eauto.
  - destruct (tiktoken.encode encoding text) as [e1 | tokens] eqn:E1.
    + split; [| split; [| split]].
      * intros n. destruct (isinstance issubclass e1 "KeyError");
          discriminate.
      * intros e. destruct (isinstance issubclass e1 "KeyError") eqn:K;
          intros [= <-]; [exact Hvalue | exact K].
      * intros e [He | (enc & [= <-] & He)]; [discriminate He |].
        rewrite E1 in He. injection He as ->.
        by destruct (isinstance issubclass e "KeyError").
      * discriminate.
    + split; [| split; [| split]].
      * intros n [= <-]. eauto.
      * discriminate.
      * intros e [He | (enc & [= <-] & He)]; [discriminate He |].
        rewrite E1 in He. discriminate He.
      * discriminate.
Qed.

(** ** The identifier as a string *)

Lemma nibble_range n j : 0 ≤ nibble n j < 16.
Proof.
  unfold nibble. change 15 with (Z.ones 4).
  rewrite Z.land_ones by lia. apply Z.mod_pos_bound. lia.
Qed.

Lemma nibble_shiftr n j : nibble (Z.shiftr n 4) j = nibble n (S j).
Proof.
  unfold nibble. rewrite Z.shiftr_shiftr by lia. do 2 f_equal. lia.
Qed.

Lemma nibble_testbit n j m :
  0 ≤ m < 4 →
  Z.testbit (nibble n j) m = Z.testbit n (m + 4 * Z.of_nat j).
Proof.
  intros Hm. unfold nibble. rewrite Z.land_spec, Z.shiftr_spec by lia.
  assert (Hc : m = 0 ∨ m = 1 ∨ m = 2 ∨ m = 3) by lia.
  destruct Hc as [-> | [-> | [-> | ->]]]; simpl; apply andb_true_r.
Qed.

(** A number below 16 is one of sixteen. *)
Lemma below_16 d :
  0 ≤ d < 16 →
  d = 0 ∨ d = 1 ∨ d = 2 ∨ d = 3 ∨ d = 4 ∨ d = 5 ∨ d = 6 ∨ d = 7 ∨
  d = 8 ∨ d = 9 ∨ d = 10 ∨ d = 11 ∨ d = 12 ∨ d = 13 ∨ d = 14 ∨ d = 15.
Proof. lia. Qed.

Ltac sixteen_cases H :=
  destruct (below_16 _ H)
    as [-> | [-> | [-> | [-> | [-> | [-> | [-> | [-> | [-> | [-> | [-> |
       [-> | [-> | [-> | [-> | ->]]]]]]]]]]]]]]];
  clear H.

Lemma hex_digit_is_hex d :
  0 ≤ d < 16 → is_hex_digit (Uuid.hex_digit d) = true.
Proof. intros Hd. sixteen_cases Hd; reflexivity. Qed.

Lemma hex_digit_inj d1 d2 :
  0 ≤ d1 < 16 → 0 ≤ d2 < 16 →
  Uuid.hex_digit d1 = Uuid.hex_digit d2 → d1 = d2.
Proof.
  intros H1 H2. sixteen_cases H1; sixteen_cases H2;
    (reflexivity || (intros Heq; vm_compute in Heq; discriminate Heq)).
Qed.

(** Two numbers below 16 with the same four bits are equal. *)
Lemma four_bits_inj x y :
  0 ≤ x < 16 → 0 ≤ y < 16 →
  (∀ m, 0 ≤ m < 4 → Z.testbit x m = Z.testbit y m) →
  x = y.
Proof.
  intros Hx Hy Hb.
  pose proof (Hb 0 ltac:(lia)) as B0.
  pose proof (Hb 1 ltac:(lia)) as B1.
  pose proof (Hb 2 ltac:(lia)) as B2.
  pose proof (Hb 3 ltac:(lia)) as B3.
  clear Hb. sixteen_cases Hx; sixteen_cases Hy;
    (reflexivity || (vm_compute in B0, B1, B2, B3; congruence)).
Qed.

Lemma hex_acc_digits k : ∀ n acc,
  list_ascii_of_string (Uuid.hex_acc k n acc)
  = map (λ j, Uuid.hex_digit (nibble n j)) (rev (seq 0 k))
    ++ list_ascii_of_string acc.
Proof.
  induction k as [| k IH]; intros n acc; [done |].
  cbn [Uuid.hex_acc]. rewrite IH. cbn [list_ascii_of_string].
  change (seq 0 (S k)) with (0%nat :: seq 1 k).
  rewrite <- seq_shift. cbn [rev]. rewrite <- List.map_rev.
  rewrite map_app, map_map. cbn [map]. rewrite <- app_assoc. cbn [app].
  f_equal. apply map_ext. intros j. by rewrite nibble_shiftr.
Qed.

Lemma hex32_digits n :
  Uuid.hex32 n
  = string_of_list_ascii
      (map (λ j, Uuid.hex_digit (nibble n j)) (rev (seq 0 32))).
Proof.
  rewrite <- (string_of_list_ascii_of_string (Uuid.hex32 n)).
  unfold Uuid.hex32. rewrite hex_acc_digits. cbn [list_ascii_of_string].
  by rewrite app_nil_r.
Qed.

(** *** Bits *)

(** A bit table checked below a bound, position by position. *)
Lemma bits_agree_below (c : Z) (f : Z → bool) (N : nat) :
  forallb (λ p, Bool.eqb (Z.testbit c (Z.of_nat p)) (f (Z.of_nat p)))
          (seq 0 N) = true →
  ∀ p, 0 ≤ p < Z.of_nat N → Z.testbit c p = f p.
Proof.
  intros Hall p Hp. rewrite forallb_forall in Hall.
  specialize (Hall (Z.to_nat p)). rewrite Z2Nat.id in Hall by lia.
  apply Bool.eqb_prop, Hall, in_seq. lia.
Qed.

(** The bits [uuid4] forces. *)
Lemma UUID_v4_testbit r p :
  0 ≤ p →
  Z.testbit (Uuid.UUID_v4 r) p =
    if (p =? 63) || (p =? 78) then true
    else if (p =? 62) || (p =? 76) || (p =? 77) || (p =? 79) then false
    else Z.testbit r p.
Proof.
  intros Hp. unfold Uuid.UUID_v4. cbv zeta.
  repeat first [ rewrite Z.lor_spec | rewrite Z.land_spec
               | rewrite Z.lnot_spec by lia ].
  destruct (Z.lt_ge_cases p 128) as [Hlt | Hge].
  - rewrite (bits_agree_below (Z.shiftl 0xc000 48)
               (λ p, (p =? 62) || (p =? 63)) 128) by (done || lia).
    rewrite (bits_agree_below (Z.shiftl 0x8000 48) (λ p, p =? 63) 128)
      by (done || lia).
    rewrite (bits_agree_below (Z.shiftl 0xf000 64)
               (λ p, (p =? 76) || (p =? 77) || (p =? 78) || (p =? 79)) 128)
      by (done || lia).
    rewrite (bits_agree_below (Z.shiftl 4 76) (λ p, p =? 78) 128)
      by (done || lia).
    destruct (Z.testbit r p);
      destruct (Z.eqb_spec p 62); destruct (Z.eqb_spec p 63);
      destruct (Z.eqb_spec p 76); destruct (Z.eqb_spec p 77);
      destruct (Z.eqb_spec p 78); destruct (Z.eqb_spec p 79);
      try reflexivity; lia.
  - rewrite (Z.bits_above_log2 (Z.shiftl 0xc000 48)) by (done || (simpl; lia)).
    rewrite (Z.bits_above_log2 (Z.shiftl 0x8000 48)) by (done || (simpl; lia)).
    rewrite (Z.bits_above_log2 (Z.shiftl 0xf000 64)) by (done || (simpl; lia)).
    rewrite (Z.bits_above_log2 (Z.shiftl 4 76)) by (done || (simpl; lia)).
    destruct (Z.eqb_spec p 62); destruct (Z.eqb_spec p 63);
      destruct (Z.eqb_spec p 76); destruct (Z.eqb_spec p 77);
      destruct (Z.eqb_spec p 78); destruct (Z.eqb_spec p 79); try lia.
    simpl. by destruct (Z.testbit r p).
Qed.

Lemma uuid4_free_bits_testbit p :
  0 ≤ p →
  Z.testbit uuid4_free_bits p =
    (p <? 128) &&
    negb ((p =? 62) || (p =? 63) || (p =? 76) || (p =? 77) || (p =? 78)
          || (p =? 79)).
Proof.
  intros Hp. destruct (Z.lt_ge_cases p 128) as [Hlt | Hge].
  - apply (bits_agree_below uuid4_free_bits
             (λ p, (p <? 128) &&
                   negb ((p =? 62) || (p =? 63) || (p =? 76) || (p =? 77)
                         || (p =? 78) || (p =? 79))) 128); [done | lia].
  - rewrite Z.bits_above_log2 by (done || (vm_compute Z.log2; lia)).
    destruct (Z.ltb_spec p 128); [lia | done].
Qed.

(** The digits of the identifier that do not come from the draw. *)
Lemma UUID_v4_version r : nibble (Uuid.UUID_v4 r) 19 = 4.
Proof.
  apply four_bits_inj; [apply nibble_range | lia |].
  intros m Hm. rewrite nibble_testbit, UUID_v4_testbit by lia.
  assert (Hc : m = 0 ∨ m = 1 ∨ m = 2 ∨ m = 3) by lia.
  by destruct Hc as [-> | [-> | [-> | ->]]].
Qed.

Lemma UUID_v4_variant r :
  nibble (Uuid.UUID_v4 r) 15 ∈ [8; 9; 10; 11].
Proof.
  pose proof (nibble_range (Uuid.UUID_v4 r) 15) as Hx.
  pose proof (nibble_testbit (Uuid.UUID_v4 r) 15 3 ltac:(lia)) as B3.
  pose proof (nibble_testbit (Uuid.UUID_v4 r) 15 2 ltac:(lia)) as B2.
  rewrite UUID_v4_testbit in B3, B2 by lia.
  change (Z.testbit (nibble (Uuid.UUID_v4 r) 15) 3 = true) in B3.
  change (Z.testbit (nibble (Uuid.UUID_v4 r) 15) 2 = false) in B2.
  revert B3 B2. generalize dependent (nibble (Uuid.UUID_v4 r) 15).
  intros x Hx. sixteen_cases Hx; intros B3 B2;
    (set_solver || (vm_compute in B3, B2; congruence)).
Qed.

(** *** The string *)

(** The characters of an identifier are the hexadecimal digits of its
    thirty-two nibbles, most significant first, with four hyphens. *)
Lemma uuid_string_shape (g : nat → ascii) :
  (∀ j, is_hex_digit (g j) = true) →
  g 19%nat = "4"%char →
  g 15%nat ∈ ["8"; "9"; "a"; "b"]%char →
  is_uuid4_string
    (let h := string_of_list_ascii (map g (rev (seq 0 32))) in
     substring 0 8 h +:+ "-" +:+ substring 8 4 h +:+ "-" +:+
     substring 12 4 h +:+ "-" +:+ substring 16 4 h +:+ "-" +:+
     substring 20 12 h) = true.
Proof.
  intros Hhex H4 Hv.
  cbv -[is_hex_digit Ascii.eqb]. rewrite !Hhex, H4.
  repeat (apply elem_of_cons in Hv as [-> | Hv]; [reflexivity |]).
  by apply elem_of_nil in Hv.
Qed.

Lemma uuid_string_inj (g1 g2 : nat → ascii) :
  (let h := string_of_list_ascii (map g1 (rev (seq 0 32))) in
   substring 0 8 h +:+ "-" +:+ substring 8 4 h +:+ "-" +:+
   substring 12 4 h +:+ "-" +:+ substring 16 4 h +:+ "-" +:+
   substring 20 12 h)
  = (let h := string_of_list_ascii (map g2 (rev (seq 0 32))) in
     substring 0 8 h +:+ "-" +:+ substring 8 4 h +:+ "-" +:+
     substring 12 4 h +:+ "-" +:+ substring 16 4 h +:+ "-" +:+
     substring 20 12 h) →
  ∀ j, (j < 32)%nat → g1 j = g2 j.
Proof.
  intros Heq. cbv in Heq.
  repeat match type of Heq with
         | String _ _ = String _ _ =>
             let H := fresh "Hc" in injection Heq as H Heq
         end.
  intros j Hj. do 32 (destruct j as [| j]; [assumption |]). lia.
Qed.

Lemma uuid_str_eq_iff a b :
  Uuid.str a = Uuid.str b ↔
  ∀ p, 0 ≤ p < 128 → Z.testbit a p = Z.testbit b p.
Proof.
  split.
  - unfold Uuid.str. rewrite !hex32_digits. intros Heq p Hp.
    pose proof (uuid_string_inj _ _ Heq (Z.to_nat (p / 4))) as Hd.
    simpl in Hd.
    assert (Hj : (Z.to_nat (p / 4) < 32)%nat).
    { apply Nat2Z.inj_lt. rewrite Z2Nat.id by (apply Z.div_pos; lia).
      apply Z.div_lt_upper_bound; lia. }
    apply Hd, hex_digit_inj in Hj; [| apply nibble_range ..].
    assert (Hpos : p = p mod 4 + 4 * Z.of_nat (Z.to_nat (p / 4))).
    { rewrite Z2Nat.id by (apply Z.div_pos; lia).
      pose proof (Z.div_mod p 4 ltac:(lia)). lia. }
    rewrite Hpos, <- !nibble_testbit by (apply Z.mod_pos_bound; lia).
    by rewrite Hj.
  - intros Hb.
    assert (Hn : ∀ j, (j < 32)%nat → nibble a j = nibble b j).
    { intros j Hj. apply four_bits_inj; [apply nibble_range .. |].
      intros m Hm. rewrite !nibble_testbit by lia. apply Hb. lia. }
    unfold Uuid.str. rewrite !hex32_digits.
    assert (Hm : map (λ j, Uuid.hex_digit (nibble a j)) (rev (seq 0 32))
               = map (λ j, Uuid.hex_digit (nibble b j)) (rev (seq 0 32))).
    { apply map_ext_in. intros j Hj%in_rev%in_seq.
      rewrite Hn by lia. done. }
    by rewrite Hm.
Qed.

(** Two draws give the same identifier exactly when they agree on the 122
    bits that [uuid4] keeps. *)
Lemma uuid4_collision r1 r2 :
  Uuid.str (Uuid.UUID_v4 (r1 mod 2 ^ 128))
  = Uuid.str (Uuid.UUID_v4 (r2 mod 2 ^ 128))
  ↔ Z.land r1 uuid4_free_bits = Z.land r2 uuid4_free_bits.
Proof.
  rewrite uuid_str_eq_iff. split.
  - intros Hb. apply Z.bits_inj'. intros p Hp.
    rewrite !Z.land_spec, uuid4_free_bits_testbit by lia.
    destruct (Z.ltb_spec p 128) as [Hlt | Hge];
      [| by rewrite !andb_false_r].
    specialize (Hb p ltac:(lia)).
    rewrite !UUID_v4_testbit, !Z.mod_pow2_bits_low in Hb by lia.
    destruct (Z.eqb_spec p 62); destruct (Z.eqb_spec p 63);
      destruct (Z.eqb_spec p 76); destruct (Z.eqb_spec p 77);
      destruct (Z.eqb_spec p 78); destruct (Z.eqb_spec p 79);
      simpl in *; rewrite ?andb_false_r, ?andb_true_r; try done; lia.
  - intros Heq p Hp.
    rewrite !UUID_v4_testbit, !Z.mod_pow2_bits_low by lia.
    pose proof (f_equal (λ x, Z.testbit x p) Heq) as Hb. simpl in Hb.
    rewrite !Z.land_spec, uuid4_free_bits_testbit in Hb by lia.
    destruct (Z.ltb_spec p 128) as [Hlt | Hge]; [| lia].
    destruct (Z.eqb_spec p 62); destruct (Z.eqb_spec p 63);
      destruct (Z.eqb_spec p 76); destruct (Z.eqb_spec p 77);
      destruct (Z.eqb_spec p 78); destruct (Z.eqb_spec p 79);
      simpl in *; rewrite ?andb_false_r, ?andb_true_r in Hb; try done; lia.
Qed.

Lemma uuid4_is_well_formed r :
  is_uuid4_string (Uuid.str (Uuid.UUID_v4 r)) = true.
Proof.
  unfold Uuid.str. rewrite hex32_digits. apply uuid_string_shape.
  - intros j. apply hex_digit_is_hex, nibble_range.
  - by rewrite UUID_v4_version.
  - pose proof (UUID_v4_variant r) as Hv.
    repeat (apply elem_of_cons in Hv as [-> | Hv]; [set_solver |]).
    by apply elem_of_nil in Hv.
Qed.

Section Identifiers.

Context {W : Type} `{!Environment W}.

Lemma built_point_id item (w w' : W) p t :
  build_point item w = (inr p, w', t) → point_id p = next_text_id w.
Proof.
  intros E. pose proof (build_point_built item w) as B. rewrite E in B.
  by inversion B.
Qed.

(** X8.  Every identifier the loop assigns, and so the identifier of
    every point handed to [upsert], is a well-formed version-4 UUID
    string: 36 characters, hyphens after the 8th, 12th, 16th and 20th
    hexadecimal digit, lowercase digits, the version digit 4 and a variant
    digit among 8, 9, a and b. *)
Theorem identifiers_are_uuid4_strings :
  (∀ item (w : W),
     match build_point item w with
     | (inr p, _, _) => is_uuid4_string (point_id p) = true
     | (inl _, _, _) => True
     end)
  ∧ (∀ data qdrant_client collection_name (w : W) c wt pts,
       (c, wt, pts) ∈ upsert_calls (trace_of (add_data_to_collection data
                                       qdrant_client collection_name w)) →
       Forall (λ p, is_uuid4_string (point_id p) = true) pts).
Proof.
  assert (Hone : ∀ item (w w' : W) p t,
            build_point item w = (inr p, w', t) →
            is_uuid4_string (point_id p) = true).
  { intros item w w' p t E. rewrite (built_point_id _ _ _ _ _ E).
    apply uuid4_is_well_formed. }
  split.
  - intros item w.
    destruct (build_point item w) as [[[e|p] w'] t] eqn:E; [done |].
    by eapply Hone.
  - intros data qdrant_client collection_name w c wt pts Hin.
    apply upserted_batch_is_built in Hin as (_ & _ & t1 & HF & _).
    induction HF as [| item p data' pts' Hp HF IH]; constructor; [| done].
    destruct Hp as (w0 & w1 & t0 & _ & _ & E & _). by eapply Hone.
Qed.

(** X9.  Two points, built from any records in any two worlds, get the
    same identifier exactly when the two 16-byte draws agree on the 122
    bits that [uuid4] keeps (all but the two variant bits and the four
    version bits): the identifier depends on nothing else, and loses
    nothing else of the draw. *)
Theorem identifiers_collide_only_on_equal_draws item1 item2 (w1 w2 : W) :
  match build_point item1 w1, build_point item2 w2 with
  | (inr p1, _, _), (inr p2, _, _) =>
      point_id p1 = point_id p2 ↔
      Z.land (os_urandom16 w1).1 uuid4_free_bits
      = Z.land (os_urandom16 w2).1 uuid4_free_bits
  | _, _ => True
  end.
Proof.
  destruct (build_point item1 w1) as [[[e1|p1] w1'] t1] eqn:E1; [done |].
  destruct (build_point item2 w2) as [[[e2|p2] w2'] t2] eqn:E2; [done |].
  rewrite (built_point_id _ _ _ _ _ E1), (built_point_id _ _ _ _ _ E2).
  apply uuid4_collision.
Qed.

End Identifiers.

(** ** More runs in the small world *)

Example counting_tokens :
  num_tokens_from_string LabMore.issubclass LabMore.get_encoding_KeyError
    "Hello, world!" "cl100k_base" = inr 13%nat ∧
  num_tokens_from_string LabMore.issubclass LabMore.get_encoding_KeyError
    "Hello, world!" "p50k_base"
    = inl (Exception "ValueError" "Unsupported encoding: p50k_base") ∧
  num_tokens_from_string LabMore.issubclass LabMore.get_encoding_subclass
    "Hello, world!" "p50k_base"
    = inl (Exception "ValueError" "Unsupported encoding: p50k_base") ∧
  num_tokens_from_string LabMore.issubclass LabMore.get_encoding_ValueError
    "Hello, world!" "p50k_base"
    = inl (Exception "ValueError" "Unknown encoding p50k_base").
Proof. repeat split; reflexivity. Qed.

(** X7 at a library that signals an unknown name with its own subclass of
    [KeyError]: the caller sees the [ValueError] of the notebook. *)
Lemma num_tokens_from_string_outcome_witness :
  num_tokens_from_string LabMore.issubclass LabMore.get_encoding_subclass
    "Hello, world!" "p50k_base"
  = inl (Exception "ValueError" "Unsupported encoding: p50k_base").
Proof.
  refine (proj1 (proj2 (proj2 (num_tokens_from_string_outcome
            LabMore.issubclass LabMore.get_encoding_subclass
            "Hello, world!" "p50k_base" _)))
            (Exception "UnknownEncoding" "p50k_base") _).
  - reflexivity.
  - left. reflexivity.
Defined.

Example unreachable_store_raises :
  result_of (LabMore.ingest_unreachable [Lab.row] Lab.world0)
    = inl (Exception "ResponseHandlingException" "connection refused") ∧
  printed (trace_of (LabMore.ingest_unreachable [Lab.row] Lab.world0)) = [].
Proof. vm_compute. split; reflexivity. Qed.

(** X4 at the two dataset rows and the lab's provider. *)
Lemma upserted_points_fit_the_collection_witness :
  Forall (λ call, Forall (fits_collection arxiv_chunks_vectors_config) call.2)
    (upsert_calls (trace_of (Lab.ingest [Lab.row; Lab.row2] Lab.world0))).
Proof.
  apply Forall_forall. intros [[c wt] pts] Hin. simpl.
  apply (@upserted_points_fit_the_collection Lab.world Lab.env
           [Lab.row; Lab.row2] Lab.q_client "arxiv_chunks" Lab.world0
           c wt pts).
  - exact lab_provider_honours_dimensionality.
  - repeat constructor; eexists _, _;
      (split; [reflexivity |]); (split; [discriminate |]);
      (split; [reflexivity | discriminate]).
  - exact Hin.
Defined.

(** X5 at the dataset row and the same row with three other keys
    removed. *)
Lemma other_fields_are_never_read_witness :
  Lab.ingest [Lab.row] Lab.world0
  = Lab.ingest [LabMore.row_trimmed] Lab.world0.
Proof.
  apply (@other_fields_are_never_read Lab.world Lab.env
           [Lab.row] [LabMore.row_trimmed] Lab.q_client "arxiv_chunks"
           Lab.world0).
  constructor; [| constructor].
  unfold same_required_fields, required_fields.
  repeat constructor; reflexivity.
Defined.

(** X1 at a provider that gives out after three calls: the run ends in
    the exception let out for the fourth call, which is its last event. *)
Lemma provider_calls_follow_the_records_witness :
  let w := Lab.mkWorld (Lab.entropy Lab.world0) 3 ∅ in
  let e := Exception "RateLimitError" "quota exceeded" in
  result_of (Lab.ingest [Lab.row; Lab.row2] w)
    = inl (reraised Lab.provider e) ∧
  ∃ input, last (trace_of (Lab.ingest [Lab.row; Lab.row2] w))
           = Some (EvEmbeddingsCreate input default_model (inl e)).
Proof.
  intros w e.
  apply (proj2 (proj2 (proj2 (@provider_calls_follow_the_records Lab.world
                                Lab.env [Lab.row; Lab.row2] Lab.q_client
                                "arxiv_chunks" w))) e).
  vm_compute. apply list_elem_of_here.
Defined.

(** X2 at the store that cannot be reached. *)
Lemma upsert_outcome_decides_the_result_witness :
  let e := Exception "ResponseHandlingException" "connection refused" in
  result_of (LabMore.ingest_unreachable [Lab.row] Lab.world0) = inl e ∧
  printed (trace_of (LabMore.ingest_unreachable [Lab.row] Lab.world0)) = [].
Proof.
  intros e.
  apply (proj1 (@upsert_outcome_decides_the_result Lab.world Lab.env
                  [Lab.row] LabMore.unreachable_client "arxiv_chunks"
                  Lab.world0) e).
  vm_compute. apply list_elem_of_here.
Defined.
